(** * Foreman Ansible modules: installation medium and host

    A shallow embedding of the [main] functions of
    [plugins/modules/foreman_installation_medium.py] and
    [plugins/modules/host.py], and the properties of their parameter
    validation, normalisation and call sequences.

    Python values are a small inductive type, dictionaries are association
    lists in insertion order (the medium module compares [list(d.keys())]
    with a literal list, so the order is observable), and the module runs in
    a state-and-exit monad over the remote service, the [changed] flag and a
    trace of the calls made on the helper library. *)

From Stdlib Require Import String Ascii List ZArith Bool Lia.
Import ListNotations.
Open Scope string_scope.

(** ** Python values *)

Set Warnings "-register-all".

Inductive value : Type :=
| VNone
| VBool (b : bool)
| VInt (z : Z)
| VStr (s : string)
| VList (l : list value)
| VDict (d : list (string * value)).

Definition dict : Type := list (string * value).

(** Python truth value testing: [if v], [not v]. *)
Definition truthy (v : value) : bool :=
  match v with
  | VNone => false
  | VBool b => b
  | VInt z => negb (Z.eqb z 0)
  | VStr s => negb (String.eqb s "")
  | VList l => match l with [] => false | _ :: _ => true end
  | VDict d => match d with [] => false | _ :: _ => true end
  end.

(** ** Dictionaries in insertion order *)

Module Dict.

Definition keys (d : dict) : list string := map fst d.

(** [k in d] *)
Fixpoint mem (k : string) (d : dict) : bool :=
  match d with
  | [] => false
  | (k', _) :: d' => if String.eqb k k' then true else mem k d'
  end.

(** [d.get(k)] *)
Fixpoint get (k : string) (d : dict) : option value :=
  match d with
  | [] => None
  | (k', v) :: d' => if String.eqb k k' then Some v else get k d'
  end.

(** [d[k] = v]: an existing key keeps its position, a new key goes last. *)
Fixpoint set (k : string) (v : value) (d : dict) : dict :=
  match d with
  | [] => [(k, v)]
  | (k', v') :: d' =>
      if String.eqb k k' then (k', v) :: d' else (k', v') :: set k v d'
  end.

(** [d.pop(k, None)], the dictionary that is left. *)
Fixpoint pop (k : string) (d : dict) : dict :=
  match d with
  | [] => []
  | (k', v') :: d' =>
      if String.eqb k k' then d' else (k', v') :: pop k d'
  end.

(** A Python dict holds each key once. *)
Definition wf (d : dict) : Prop := NoDup (keys d).

End Dict.

(** ** Strings *)

(** [str.lower()] on ASCII text (hardware addresses are ASCII). *)
Definition lower_ascii (c : ascii) : ascii :=
  let n := nat_of_ascii c in
  if (Nat.leb 65 n && Nat.leb n 90)%bool then ascii_of_nat (n + 32) else c.

Fixpoint lower (s : string) : string :=
  match s with
  | EmptyString => EmptyString
  | String c s' => String (lower_ascii c) (lower s')
  end.

(** [needle in s] for two strings. *)
Fixpoint str_contains (needle s : string) : bool :=
  if String.prefix needle s then true
  else match s with
       | EmptyString => false
       | String _ s' => str_contains needle s'
       end.

Fixpoint list_string_eqb (a b : list string) : bool :=
  match a, b with
  | [], [] => true
  | x :: a', y :: b' => String.eqb x y && list_string_eqb a' b'
  | _, _ => false
  end.

(** [x == '*']-style comparison of a value with a string literal. *)
Definition eq_str (v : value) (s : string) : bool :=
  match v with
  | VStr s' => String.eqb s' s
  | _ => false
  end.

(** [repr] of a key; keys are the identifiers of the module's schema, which
    need no escaping. *)
Definition repr_str (s : string) : string := "'" ++ s ++ "'".

(** [str(d.keys())], as Python 3 prints a key view. *)
Definition str_keys (ks : list string) : string :=
  "dict_keys([" ++ String.concat ", " (map repr_str ks) ++ "])".

(** ** Module state, trace and the exit monad *)

(** The [state] parameter of both modules; its [choices] are these three. *)
Inductive entity_state : Type := Present | PresentWithDefaults | Absent.

(** [module.desired_absent] *)
Definition is_absent (st : entity_state) : bool :=
  match st with Absent => true | _ => false end.

Definition is_present_with_defaults (st : entity_state) : bool :=
  match st with PresentWithDefaults => true | _ => false end.

(** What a helper call gave back: [inl msg] when the helper itself ended the
    module with [fail_json(msg=msg)], [inr a] when it returned [a]. *)
Definition reply (A : Type) : Type := (string + A)%type.

(** One entry per call made on the module object, in call order, each with
    its arguments and what it gave back. *)
Inductive event : Type :=
| EApiConnect
| EApiRelease
| EWarn (msg : string)
| EListResource (resource : string) (r : reply (list dict))
| EShowResource (resource : string) (id : value) (r : reply dict)
| EFindResourceByName (resource : string) (name : value)
    (r : reply (option dict))
| EResolveEntities (params : dict) (entity : option dict)
    (r : reply (option dict * dict))
| EEnsureEntity (resource : string) (params : dict) (entity : option dict)
    (r : reply bool)
| EAutoLookupEntities (params : dict) (r : reply dict)
| ERun (params : dict) (r : reply (option dict * bool))
| EEnsurePuppetclasses (resource : string) (entity : dict) (expected : value)
    (r : reply bool).

(** The calls that reach the remote service through list, show, create,
    update or delete. Acquiring the connection and warning do not. *)
Definition is_remote_call (e : event) : bool :=
  match e with
  | EApiConnect | EApiRelease | EWarn _ => false
  | _ => true
  end.

Definition remote_calls (t : list event) : list event :=
  filter is_remote_call t.

(** How a run of [main] ends. *)
Inductive outcome (A : Type) : Type :=
| Ret (a : A)
| FailJson (msg : string)
| ExitJson (changed : bool)
| Raise (exn : string).

Arguments Ret {A} a.
Arguments FailJson {A} msg.
Arguments ExitJson {A} changed.
Arguments Raise {A} exn.

Section Engine.

(** The remote service; the helper calls read and change it. *)
Variable World : Type.

Record mstate : Type := MState {
  world : World;
  changed : bool;
  trace : list event
}.

Definition M (A : Type) : Type := mstate -> outcome A * mstate.

Definition ret {A} (a : A) : M A := fun s => (Ret a, s).

Definition bind {A B} (m : M A) (f : A -> M B) : M B :=
  fun s =>
    match m s with
    | (Ret a, s') => f a s'
    | (FailJson msg, s') => (FailJson msg, s')
    | (ExitJson c, s') => (ExitJson c, s')
    | (Raise e, s') => (Raise e, s')
    end.

Definition log (e : event) (s : mstate) : mstate :=
  MState (world s) (changed s) (trace s ++ [e])%list.

(** [module.fail_json(msg=...)] ends the run. *)
Definition fail_json {A} (msg : string) : M A := fun s => (FailJson msg, s).

(** [module.exit_json()] ends the run and reports the [changed] flag. *)
Definition exit_json {A} : M A := fun s => (ExitJson (changed s), s).

(** An uncaught Python exception. *)
Definition raise {A} (exn : string) : M A := fun s => (Raise exn, s).

(** The helper or-s a reported change into the module's flag. *)
Definition set_changed (c : bool) : M unit :=
  fun s => (Ret tt, MState (world s) (changed s || c) (trace s)).

Definition warn (msg : string) : M unit :=
  fun s => (Ret tt, log (EWarn msg) s).

(** A helper call that only reads. *)
Definition call {A} (f : World -> reply A * World) (ev : reply A -> event)
  : M A :=
  fun s =>
    let (r, w) := f (world s) in
    let s' := MState w (changed s) (trace s ++ [ev r])%list in
    match r with
    | inl msg => (FailJson msg, s')
    | inr a => (Ret a, s')
    end.

(** A helper call that may change the remote side; it gives back whether
    it did, which is or-ed into the module's [changed] flag. *)
Definition call_changing (f : World -> reply bool * World)
  (ev : reply bool -> event) : M unit :=
  fun s =>
    let (r, w) := f (world s) in
    let t := (trace s ++ [ev r])%list in
    match r with
    | inl msg => (FailJson msg, MState w (changed s) t)
    | inr c => (Ret tt, MState w (changed s || c) t)
    end.

Definition init (w : World) : mstate := MState w false [].

(** [with module.api_connection(): body]: the connection is released on
    every way out of [body]. *)
Definition api_connection {A} (body : M A) : M A :=
  fun s =>
    let (r, s') := body (log EApiConnect s) in (r, log EApiRelease s').

(** [d[k]] *)
Definition getitem (d : dict) (k : string) : M value :=
  match Dict.get k d with
  | Some v => ret v
  | None => raise "KeyError"
  end.

Fixpoint mapM {A B} (f : A -> M B) (l : list A) : M (list B) :=
  match l with
  | [] => ret []
  | x :: l' =>
      bind (f x) (fun y => bind (mapM f l') (fun ys => ret (y :: ys)))
  end.

Fixpoint forM_ {A} (l : list A) (f : A -> M unit) : M unit :=
  match l with
  | [] => ret tt
  | x :: l' => bind (f x) (fun _ => forM_ l' f)
  end.


Notation "x <- m ;; k" := (bind m (fun x => k))
  (at level 61, m at next level, right associativity).
Notation "' pat <- m ;; k" := (bind m (fun x => let pat := x in k))
  (at level 61, pat pattern, m at next level, right associativity).

(** [v[k]] for a string key. *)
Definition subscript (v : value) (k : string) : M value :=
  match v with
  | VDict d => getitem d k
  | _ => raise "TypeError"
  end.

(** [v[0]] *)
Definition first (v : value) : M value :=
  match v with
  | VList (x :: _) => ret x
  | VList [] => raise "IndexError"
  | VStr (String c _) => ret (VStr (String c ""))
  | VStr EmptyString => raise "IndexError"
  | VDict _ => raise "KeyError"
  | _ => raise "TypeError"
  end.

(** [len(v)] *)
Definition len (v : value) : M nat :=
  match v with
  | VList l => ret (length l)
  | VStr s => ret (String.length s)
  | VDict d => ret (length d)
  | _ => raise "TypeError"
  end.

(** [for x in v]: the values a Python iteration yields. *)
Definition iter (v : value) : M (list value) :=
  match v with
  | VList l => ret l
  | VStr s => ret (map (fun c => VStr (String c "")) (list_ascii_of_string s))
  | VDict d => ret (map VStr (Dict.keys d))
  | _ => raise "TypeError"
  end.

(** [needle in v] for a string [needle]. *)
Definition contains (needle : string) (v : value) : M bool :=
  match v with
  | VStr s => ret (str_contains needle s)
  | VList l => ret (existsb (fun x => eq_str x needle) l)
  | VDict d => ret (Dict.mem needle d)
  | _ => raise "TypeError"
  end.

(** ** The helper library

    [foreman_helper] is imported, not defined, by the modules: its calls
    are taken as given. Each reads the module's parameters where the
    method does, and acts on the remote service. *)
Record remote : Type := Remote {
  list_resource : string -> World -> reply (list dict) * World;
  show_resource : string -> value -> World -> reply dict * World;
  (* find_resource_by_name(resource, name=..., failsafe=True) *)
  find_resource_by_name :
    string -> value -> World -> reply (option dict) * World;
  (* resolve_entities(entity=...) on the module's foreman_params *)
  resolve_entities :
    dict -> option dict -> World -> reply (option dict * dict) * World;
  ensure_entity :
    string -> dict -> option dict -> World -> reply bool * World;
  (* auto_lookup_entities() gives the module's foreman_params afterwards *)
  auto_lookup_entities : dict -> World -> reply dict * World;
  (* run() gives the entity and whether something changed *)
  run : dict -> World -> reply (option dict * bool) * World;
  ensure_puppetclasses :
    string -> dict -> value -> World -> reply bool * World
}.

Variable R : remote.

(** ** foreman_installation_medium.py *)

Record medium_module : Type := MediumModule {
  m_state : entity_state;      (* module.state *)
  m_params : dict;             (* module.params *)
  m_foreman_params : dict      (* module.foreman_params *)
}.

(** Lines 113 to 122: the combinations refused with [name: *]. *)
Definition medium_check_wildcard (module : medium_module) : M unit :=
  let module_params := m_foreman_params module in
  _ <- (if is_present_with_defaults (m_state module)
        then fail_json "'state: present_with_defaults' and 'name: *' cannot be used together"
        else ret tt) ;;
  updated_name <- getitem (m_params module) "updated_name" ;;
  _ <- (if truthy updated_name
        then fail_json "updated_name not allowed if 'name: *'!"
        else ret tt) ;;
  if is_absent (m_state module) then
    if negb (list_string_eqb (Dict.keys module_params) ["name"; "entity"])
    then
      let module_params :=
        Dict.pop "entity" (Dict.pop "name" module_params) in
      fail_json ("When deleting all installation media, there is no need to specify further parameters: "
                 ++ str_keys (Dict.keys module_params) ++ " ")
    else ret tt
  else ret tt.

(** Lines 124 to 132: the entities to work on, [(entities, entity)]. The
    comprehension's variable does not leak, so [entity] stays [None] in
    the wildcard case. *)
Definition medium_lookup (module : medium_module) (affects_multiple : bool)
  : M (list dict * option dict) :=
  let module_params := m_foreman_params module in
  if affects_multiple then
    entities <- call (list_resource R "media") (EListResource "media") ;;
    entities <-
      (if negb (is_absent (m_state module)) then
         mapM (fun entity : dict =>
                 id <- getitem entity "id" ;;
                 call (show_resource R "media" id) (EShowResource "media" id))
              entities
       else ret entities) ;;
    match entities with
    | [] => exit_json
    | _ :: _ => ret (entities, None)
    end
  else
    name <- getitem module_params "name" ;;
    entity <- call (find_resource_by_name R "media" name)
                   (EFindResourceByName "media" name) ;;
    ret ([], entity).

(** The condition of lines 136 and 137, with Python's short-circuit. *)
Definition medium_derives (affects_multiple : bool) (module_params : dict)
  (entity : option dict) : M bool :=
  if (Dict.mem "operatingsystems" module_params
      && negb affects_multiple)%bool then
    oses <- getitem module_params "operatingsystems" ;;
    n <- len oses ;;
    ret (Nat.eqb n 1
         && negb (Dict.mem "os_family" module_params)
         && match entity with None => true | Some _ => false end)%bool
  else ret false.

(** Lines 134 to 138: the parameters after resolution. *)
Definition medium_resolve (module : medium_module) (affects_multiple : bool)
  (entity : option dict) : M dict :=
  let module_params := m_foreman_params module in
  if negb (is_absent (m_state module)) then
    '(_, module_params) <-
      call (resolve_entities R module_params entity)
           (EResolveEntities module_params entity) ;;
    derive <- medium_derives affects_multiple module_params entity ;;
    if derive then
      oses <- getitem module_params "operatingsystems" ;;
      os <- first oses ;;
      id <- subscript os "id" ;;
      shown <- call (show_resource R "operatingsystems" id)
                    (EShowResource "operatingsystems" id) ;;
      family <- getitem shown "family" ;;
      ret (Dict.set "os_family" family module_params)
    else ret module_params
  else ret module_params.

(** Lines 140 to 145. *)
Definition medium_ensure (affects_multiple : bool) (module_params : dict)
  (entities : list dict) (entity : option dict) : M unit :=
  if negb affects_multiple then
    call_changing (ensure_entity R "media" module_params entity)
                  (EEnsureEntity "media" module_params entity)
  else
    _ <- getitem module_params "name" ;;
    let module_params := Dict.pop "name" module_params in
    forM_ entities (fun entity =>
      call_changing
        (ensure_entity R "media" module_params (Some entity))
        (EEnsureEntity "media" module_params (Some entity))).

Definition medium_main (module : medium_module) : M unit :=
  let module_params := m_foreman_params module in
  api_connection (
    name <- getitem module_params "name" ;;
    let affects_multiple := eq_str name "*" in
    _ <- (if affects_multiple then medium_check_wildcard module
          else ret tt) ;;
    '(entities, entity) <- medium_lookup module affects_multiple ;;
    module_params <- medium_resolve module affects_multiple entity ;;
    medium_ensure affects_multiple module_params entities entity
  ).

(** ** host.py *)

Record host_module : Type := HostModule {
  h_state : entity_state;      (* module.state *)
  h_foreman_params : dict      (* module.foreman_params *)
}.

(** [{k: v for k, v in obj.items() if v}] *)
Definition prune (obj : dict) : dict :=
  filter (fun kv => truthy (snd kv)) obj.

(** [[nic for nic in ({k: v for k, v in obj.items() if v}
                      for obj in interfaces) if nic]] *)
Definition filter_interfaces (interfaces : value) : M (list value) :=
  objs <- iter interfaces ;;
  nics <- mapM (fun obj : value =>
                  match obj with
                  | VDict d => ret (prune d)
                  | _ => raise "AttributeError"
                  end) objs ;;
  ret (map VDict
         (filter (fun nic : dict =>
                    match nic with [] => false | _ :: _ => true end)
                 nics)).

(** The truth value of [d[k]] for a key known to be in [d]. *)
Definition truthy_at (k : string) (d : dict) : bool :=
  match Dict.get k d with
  | Some v => truthy v
  | None => false
  end.

(** Lines 430 to 450: the rewriting of [module.foreman_params] done when
    the desired state is not absent. *)
Definition host_normalize (foreman_params : dict) : M dict :=
  foreman_params <-
    (if (Dict.mem "build" foreman_params
         && truthy_at "build" foreman_params)%bool then
       _ <- (if (Dict.mem "managed" foreman_params
                 && negb (truthy_at "managed" foreman_params))%bool
             then warn "when 'build'=True, 'managed' is ignored and forced to True"
             else ret tt) ;;
       ret (Dict.set "managed" (VBool true) foreman_params)
     else if (negb (Dict.mem "build" foreman_params)
              && Dict.mem "managed" foreman_params
              && negb (truthy_at "managed" foreman_params))%bool then
       ret (Dict.set "build" (VBool false) foreman_params)
     else ret foreman_params) ;;
  foreman_params <-
    (match Dict.get "mac" foreman_params with
     | Some (VStr mac) =>
         ret (Dict.set "mac" (VStr (lower mac)) foreman_params)
     | Some _ => raise "AttributeError"
     | None => ret foreman_params
     end) ;;
  let foreman_params :=
    if Dict.mem "owner" foreman_params then
      Dict.set "owner_type" (VStr "User") foreman_params
    else if Dict.mem "owner_group" foreman_params then
      Dict.set "owner_type" (VStr "Usergroup") foreman_params
    else foreman_params in
  match Dict.get "interfaces_attributes" foreman_params with
  | Some interfaces =>
      filtered <- filter_interfaces interfaces ;;
      ret (Dict.set "interfaces_attributes" (VList filtered) foreman_params)
  | None => ret foreman_params
  end.

(** Lines 453 to 458, the body of the [with] block. *)
Definition host_reconcile (desired_absent : bool) (foreman_params : dict)
  : M unit :=
  foreman_params <-
    (if negb desired_absent then
       call (auto_lookup_entities R foreman_params)
            (EAutoLookupEntities foreman_params)
     else ret foreman_params) ;;
  let expected_puppetclasses :=
    match Dict.get "puppetclasses" foreman_params with
    | Some v => v
    | None => VNone
    end in
  let foreman_params := Dict.pop "puppetclasses" foreman_params in
  '(entity, chg) <- call (run R foreman_params) (ERun foreman_params) ;;
  _ <- set_changed chg ;;
  if negb desired_absent then
    match entity with
    | None => raise "TypeError"
    | Some entity =>
        if Dict.mem "environment_id" entity then
          call_changing
            (ensure_puppetclasses R "host" entity expected_puppetclasses)
            (EEnsurePuppetclasses "host" entity expected_puppetclasses)
        else ret tt
    end
  else ret tt.

Definition host_main (module : host_module) : M unit :=
  let foreman_params := h_foreman_params module in
  let desired_absent := is_absent (h_state module) in
  (* additional param validation *)
  name <- getitem foreman_params "name" ;;
  fqdn <- contains "." name ;;
  _ <- (if negb fqdn then fail_json "The hostname must be FQDN"
        else ret tt) ;;
  foreman_params <-
    (if negb desired_absent then host_normalize foreman_params
     else ret foreman_params) ;;
  api_connection (host_reconcile desired_absent foreman_params).

(** [mutually_exclusive=[['owner', 'owner_group']]] *)
Definition host_mutually_exclusive : list (list string) :=
  [["owner"; "owner_group"]].

(** Modelled from the spec: the argument check of the module constructor,
    which is part of the Ansible framework and not of these files. Input
    that provides all the fields of one mutually exclusive group is
    rejected; the message names the group. *)
Definition check_mutually_exclusive (groups : list (list string))
  (args : dict) : option string :=
  match
    filter (fun group =>
              Nat.ltb 1 (length (filter (fun k => Dict.mem k args) group)))
           groups
  with
  | [] => None
  | group :: _ =>
      Some ("parameters are mutually exclusive: " ++ String.concat "|" group)
  end.

(** One invocation of the host module: the constructor's argument check,
    then [main] on the module it built. *)
Definition host_invocation (st : entity_state) (args : dict) : M unit :=
  match check_mutually_exclusive host_mutually_exclusive args with
  | Some msg => fail_json msg
  | None => host_main (HostModule st args)
  end.

End Engine.

Arguments MState {World} world changed trace.
Arguments world {World} m.
Arguments changed {World} m.
Arguments trace {World} m.
Arguments Remote {World}.
Arguments init {World} w.
Arguments list_resource {World} r.
Arguments show_resource {World} r.
Arguments find_resource_by_name {World} r.
Arguments resolve_entities {World} r.
Arguments ensure_entity {World} r.
Arguments auto_lookup_entities {World} r.
Arguments run {World} r.
Arguments ensure_puppetclasses {World} r.
Arguments ret {World A} a _.
Arguments bind {World A B} m f _.
Arguments log {World} e s.
Arguments fail_json {World A} msg _.
Arguments exit_json {World A} _.
Arguments raise {World A} exn _.
Arguments set_changed {World} c _.
Arguments warn {World} msg _.
Arguments call {World A} f ev _.
Arguments call_changing {World} f ev _.
Arguments api_connection {World A} body _.
Arguments getitem {World} d k _.
Arguments mapM {World A B} f l _.
Arguments forM_ {World A} l f _.
Arguments subscript {World} v k _.
Arguments first {World} v _.
Arguments len {World} v _.
Arguments iter {World} v _.
Arguments contains {World} needle v _.
Arguments medium_check_wildcard {World} module _.
Arguments medium_lookup {World} R module affects_multiple _.
Arguments medium_derives {World} affects_multiple module_params entity _.
Arguments medium_resolve {World} R module affects_multiple entity _.
Arguments medium_ensure {World} R affects_multiple module_params entities
  entity _.
Arguments medium_main {World} R module _.
Arguments filter_interfaces {World} interfaces _.
Arguments host_normalize {World} foreman_params _.
Arguments host_reconcile {World} R desired_absent foreman_params _.
Arguments host_main {World} R module _.
Arguments host_invocation {World} R st args _.
Arguments prune obj : simpl never.

(** ** The types the host schema declares

    [foreman_spec] gives [managed] and [build] the type [bool] and
    [interfaces_attributes] the type list of dict; [name] and [mac] have the
    default type, a string. The framework converts the input to these types
    before [main] sees it. *)

Definition is_bool (v : value) : bool :=
  match v with VBool _ => true | _ => false end.

Definition is_str (v : value) : bool :=
  match v with VStr _ => true | _ => false end.

Definition is_dict (v : value) : bool :=
  match v with VDict _ => true | _ => false end.

Definition is_list_of_dict (v : value) : bool :=
  match v with VList l => forallb is_dict l | _ => false end.

(** A field that is present has the type [ty]. *)
Definition has_type (ty : value -> bool) (k : string) (d : dict) : bool :=
  match Dict.get k d with
  | Some v => ty v
  | None => true
  end.

Definition host_spec_typed (foreman_params : dict) : bool :=
  has_type is_str "name" foreman_params
  && has_type is_bool "managed" foreman_params
  && has_type is_bool "build" foreman_params
  && has_type is_str "mac" foreman_params
  && has_type is_list_of_dict "interfaces_attributes" foreman_params.

(** [sub] occurs in [s]. *)
Definition occurs_in (sub s : string) : Prop :=
  exists a b, s = a ++ sub ++ b.

(** The interface records of a list of dict values. *)
Fixpoint dicts_of (l : list value) : list dict :=
  match l with
  | [] => []
  | VDict d :: l' => d :: dicts_of l'
  | _ :: l' => dicts_of l'
  end.

Definition nonempty (d : dict) : bool :=
  match d with [] => false | _ :: _ => true end.

(** ** A remote service for examples

    It holds nothing: every listing gives [listing], every lookup by name
    [found], every show [shown]; resolution leaves the parameters as they
    are and every reconciliation reports a change. *)
Definition stub_remote (listing : list dict) (found : option dict)
  (shown : dict) (entity : option dict) : remote unit :=
  Remote
    (fun _ w => (inr listing, w))
    (fun _ _ w => (inr shown, w))
    (fun _ _ w => (inr found, w))
    (fun params e w => (inr (e, params), w))
    (fun _ _ _ w => (inr true, w))
    (fun params w => (inr params, w))
    (fun _ w => (inr (entity, true), w))
    (fun _ _ _ w => (inr true, w)).

Definition msg_further_parameters : string :=
  "When deleting all installation media, there is no need to specify further parameters: ".

Definition msg_updated_name : string :=
  "updated_name not allowed if 'name: *'!".

Definition msg_with_defaults : string :=
  "'state: present_with_defaults' and 'name: *' cannot be used together".

Definition msg_build_managed : string :=
  "when 'build'=True, 'managed' is ignored and forced to True".

(** ** Trace invariants *)

(** Whatever [m] adds to the trace satisfies [P]. *)
Definition emits_only {World A : Type} (P : event -> Prop) (m : M World A)
  : Prop :=
  forall s, exists t, trace (snd (m s)) = (trace s ++ t)%list /\ Forall P t.

Definition is_listing (e : event) : bool :=
  match e with EListResource _ _ => true | _ => false end.

Definition is_warning (e : event) : bool :=
  match e with EWarn _ => true | _ => false end.

Definition not_listing (e : event) : Prop := is_listing e = false.

(** ** The normalisation of the host parameters, stage by stage

    The four rewritings of lines 430 to 450 as functions of the parameters,
    used to describe what [host_normalize] gives on input of the declared
    types. *)

(** [build] is present and true. *)
Definition build_set (fp : dict) : bool :=
  Dict.mem "build" fp && truthy_at "build" fp.

(** [managed] is present and false. *)
Definition managed_cleared (fp : dict) : bool :=
  Dict.mem "managed" fp && negb (truthy_at "managed" fp).

Definition couple_build_managed (fp : dict) : dict :=
  if build_set fp then Dict.set "managed" (VBool true) fp
  else if negb (Dict.mem "build" fp) && managed_cleared fp
       then Dict.set "build" (VBool false) fp
       else fp.

Definition lower_mac (fp : dict) : dict :=
  match Dict.get "mac" fp with
  | Some (VStr mac) => Dict.set "mac" (VStr (lower mac)) fp
  | _ => fp
  end.

Definition derive_owner_type (fp : dict) : dict :=
  if Dict.mem "owner" fp then Dict.set "owner_type" (VStr "User") fp
  else if Dict.mem "owner_group" fp
       then Dict.set "owner_type" (VStr "Usergroup") fp
       else fp.

Definition pruned_interfaces (interfaces : list value) : list value :=
  map VDict (filter nonempty (map prune (dicts_of interfaces))).

Definition prune_interfaces (fp : dict) : dict :=
  match Dict.get "interfaces_attributes" fp with
  | Some (VList interfaces) =>
      Dict.set "interfaces_attributes" (VList (pruned_interfaces interfaces)) fp
  | _ => fp
  end.

Definition normalized (fp : dict) : dict :=
  prune_interfaces (derive_owner_type (lower_mac (couple_build_managed fp))).

(** The warnings of the normalisation. *)
Definition normalize_warnings (fp : dict) : list event :=
  if build_set fp && managed_cleared fp then [EWarn msg_build_managed]
  else [].

Definition only_warnings (e : event) : Prop := is_warning e = true.

(** The puppet classes were synchronised. *)
Definition synced_puppetclasses (t : list event) : Prop :=
  exists entity expected r,
    In (EEnsurePuppetclasses "host" entity expected r) t.

(** [run] came back with an entity that has an [environment_id]. *)
Definition run_gave_environment (t : list event) : Prop :=
  exists params entity chg,
    In (ERun params (inr (Some entity, chg))) t
    /\ Dict.mem "environment_id" entity = true.

(** ** Example invocations *)

Definition wildcard_name : string * value := ("name", VStr "*").

(** [name: *], [state: absent], a [path] besides, no [updated_name]. *)
Definition medium_delete_all_with_path : medium_module :=
  MediumModule Absent [("updated_name", VNone)]
    [wildcard_name; ("path", VStr "http://mirror/"); ("entity", VStr "*")].

(** The same with [updated_name: new]. *)
Definition medium_delete_all_renamed : medium_module :=
  MediumModule Absent [("updated_name", VStr "new")]
    [wildcard_name; ("path", VStr "http://mirror/"); ("entity", VStr "*")].

(** [name: *], [state: present_with_defaults]. *)
Definition medium_seed_all : medium_module :=
  MediumModule PresentWithDefaults [("updated_name", VNone)]
    [wildcard_name; ("entity", VStr "*")].

(** [name: *], [state: present], a new [path]. *)
Definition medium_update_all : medium_module :=
  MediumModule Present [("updated_name", VNone)]
    [wildcard_name; ("path", VStr "http://mirror/"); ("entity", VStr "*")].

(** A medium [wheezy] with one operating system, already resolved to its
    reference, and no [os_family]. *)
Definition wheezy_params : dict :=
  [("name", VStr "wheezy");
   ("operatingsystems", VList [VDict [("id", VInt 3)]]);
   ("entity", VStr "wheezy")].

Definition medium_wheezy : medium_module :=
  MediumModule Present [("updated_name", VNone)] wheezy_params.

Definition debian : dict := [("id", VInt 3); ("family", VStr "Debian")].

Definition wheezy_remote : dict := [("id", VInt 7); ("name", VStr "wheezy")].

(** A host given [build: true] and [managed: false], an upper-case [mac],
    an owner and two interfaces with empty values. *)
Definition host_params : dict :=
  [("name", VStr "new.example.com");
   ("build", VBool true);
   ("managed", VBool false);
   ("mac", VStr "AA:BB:CC:00:11:22");
   ("owner", VStr "admin");
   ("interfaces_attributes",
    VList [VDict [("ip", VStr ""); ("mac", VStr "aa:bb")];
           VDict [("ip", VNone); ("managed", VBool false)]])].

(** A host to delete that names its puppet classes. *)
Definition host_with_classes : dict :=
  [("name", VStr "old.example.com"); ("puppetclasses", VList [VStr "ntp"])].

Definition host_entity : dict := [("id", VInt 1); ("environment_id", VInt 2)].

(** ** foreman_scap_tailoring_file.py *)


(** ** What the trace tells *)

(** The message of a helper call that ended the module. *)
Definition event_failure (e : event) : option string :=
  match e with
  | EListResource _ (inl msg)
  | EShowResource _ _ (inl msg)
  | EFindResourceByName _ _ (inl msg)
  | EResolveEntities _ _ (inl msg)
  | EEnsureEntity _ _ _ (inl msg)
  | EAutoLookupEntities _ (inl msg)
  | ERun _ (inl msg)
  | EEnsurePuppetclasses _ _ _ (inl msg) => Some msg
  | _ => None
  end.

Definition succeeded (e : event) : Prop := event_failure e = None.

(** The helper call reported a change of the remote side. *)
Definition reports_change (e : event) : bool :=
  match e with
  | EEnsureEntity _ _ _ (inr c) => c
  | ERun _ (inr (_, c)) => c
  | EEnsurePuppetclasses _ _ _ (inr c) => c
  | _ => false
  end.

Definition remote_call (e : event) : Prop := is_remote_call e = true.

(** What [m] adds to the trace satisfies [P]; the [changed] flag is raised
    exactly by the changes reported on the way; [exit_json] is reached only
    where [E] allows it and reports the flag; and a failed helper call is
    the last thing [m] does, ending the module with that call's message. *)
Definition disciplined {World A : Type} (P : event -> Prop) (E : Prop)
  (m : M World A) : Prop :=
  forall s, exists t,
    trace (snd (m s)) = (trace s ++ t)%list
    /\ Forall P t
    /\ changed (snd (m s)) = (changed s || existsb reports_change t)%bool
    /\ (forall c, fst (m s) = ExitJson c -> E /\ c = changed (snd (m s)))
    /\ (Forall succeeded t
        \/ exists t0 e msg,
             t = (t0 ++ [e])%list /\ Forall succeeded t0
             /\ event_failure e = Some msg /\ fst (m s) = FailJson msg).

(** The helper calls of the installation medium module. *)
Definition is_medium_call (e : event) : bool :=
  match e with
  | EListResource res _ => String.eqb res "media"
  | EShowResource res _ _ =>
      String.eqb res "media" || String.eqb res "operatingsystems"
  | EFindResourceByName res _ _ => String.eqb res "media"
  | EResolveEntities _ _ _ => true
  | EEnsureEntity res _ _ _ => String.eqb res "media"
  | _ => false
  end.

Definition medium_call (e : event) : Prop := is_medium_call e = true.

(** The helper calls of the host module. *)
Definition is_host_call (e : event) : bool :=
  match e with
  | EAutoLookupEntities _ _ => true
  | ERun _ _ => true
  | EEnsurePuppetclasses res _ _ _ => String.eqb res "host"
  | _ => false
  end.

Definition host_call (e : event) : Prop := is_host_call e = true.


(** The shape of a run that checks and warns first and then works inside
    the connection: either it stopped before acquiring the connection, with
    a failure or an exception and nothing but warnings in the trace, or the
    warnings are followed by the connection, the helper calls and the
    release. *)
Definition guarded {World A : Type} (m : M World A) : Prop :=
  forall s, exists ws,
    Forall only_warnings ws
    /\ ((trace (snd (m s)) = (trace s ++ ws)%list
         /\ changed (snd (m s)) = changed s
         /\ ((exists msg, fst (m s) = FailJson msg)
             \/ exists exn, fst (m s) = Raise exn))
        \/ exists t,
             trace (snd (m s))
             = (trace s ++ ws ++ EApiConnect :: t ++ [EApiRelease])%list
             /\ Forall host_call t
             /\ changed (snd (m s))
                = (changed s || existsb reports_change t)%bool
             /\ (forall c, fst (m s) <> ExitJson c)
             /\ (Forall succeeded t
                 \/ exists t0 e msg,
                      t = (t0 ++ [e])%list /\ Forall succeeded t0
                      /\ event_failure e = Some msg
                      /\ fst (m s) = FailJson msg)).



Definition is_list (v : value) : bool :=
  match v with VList _ => true | _ => false end.

(** The helper calls made for a medium given by name, and those made for
    all media. *)
Definition is_named_call (e : event) : bool :=
  match e with
  | EFindResourceByName res _ _ => String.eqb res "media"
  | EResolveEntities _ _ _ => true
  | EShowResource res _ _ => String.eqb res "operatingsystems"
  | EEnsureEntity res _ _ _ => String.eqb res "media"
  | _ => false
  end.

Definition is_bulk_call (e : event) : bool :=
  match e with
  | EListResource res _ => String.eqb res "media"
  | EShowResource res _ _ => String.eqb res "media"
  | EResolveEntities _ _ _ => true
  | EEnsureEntity res _ _ _ => String.eqb res "media"
  | _ => false
  end.

Definition named_call (e : event) : Prop := is_named_call e = true.

Definition bulk_call (e : event) : Prop := is_bulk_call e = true.

(** Further example invocations. *)

(** [name: wheezy], [state: absent]. *)
Definition medium_delete_wheezy : medium_module :=
  MediumModule Absent [("updated_name", VNone)]
    [("name", VStr "wheezy"); ("entity", VStr "wheezy")].


(** The medium [wheezy] with its [os_family] given. *)
Definition medium_wheezy_with_family : medium_module :=
  MediumModule Present [("updated_name", VNone)]
    (wheezy_params ++ [("os_family", VStr "Debian")])%list.


(** * Properties *)

(** ** Strings and dictionaries *)

Lemma append_assoc (a b c : string) : (a ++ b) ++ c = a ++ b ++ c.
Proof.
  induction a as [|x a IH]; simpl; [reflexivity | now rewrite IH].
Qed.

Lemma occurs_in_refl (s : string) : occurs_in s s.
Proof.
  exists "", "". simpl. induction s as [|c s IH]; simpl; [reflexivity|].
  now rewrite <- IH.
Qed.

Lemma occurs_in_app_l (x a s : string) : occurs_in x s -> occurs_in x (a ++ s).
Proof.
  intros (p & q & ->). exists (a ++ p), q. now rewrite append_assoc.
Qed.

Lemma occurs_in_app_r (x s b : string) : occurs_in x s -> occurs_in x (s ++ b).
Proof.
  intros (p & q & ->). exists p, (q ++ b). now rewrite !append_assoc.
Qed.

Lemma occurs_in_concat (sep x : string) (l : list string) :
  In x l -> occurs_in x (String.concat sep l).
Proof.
  induction l as [|y l IH]; intros Hin; [destruct Hin|].
  destruct Hin as [-> | Hin].
  - destruct l as [|z l]; simpl.
    + apply occurs_in_refl.
    + apply occurs_in_app_r, occurs_in_refl.
  - destruct l as [|z l]; [destruct Hin|].
    change (String.concat sep (y :: z :: l))
      with (y ++ sep ++ String.concat sep (z :: l)).
    now apply occurs_in_app_l, occurs_in_app_l, IH.
Qed.

Lemma str_contains_dot_cons (c : ascii) (s : string) :
  str_contains "." (String c s)
  = if ascii_dec "." c then true else str_contains "." s.
Proof.
  cbn [str_contains String.prefix].
  destruct (ascii_dec "." c); [now destruct s | reflexivity].
Qed.

Lemma str_contains_dot (s : string) :
  str_contains "." s = false <-> ~ In "."%char (list_ascii_of_string s).
Proof.
  induction s as [|c s IH].
  - simpl. split; [intros _ [] | reflexivity].
  - rewrite str_contains_dot_cons. cbn [list_ascii_of_string In].
    destruct (ascii_dec "." c) as [<- | Hne].
    + split; [discriminate | intros H; exfalso; apply H; now left].
    + rewrite IH. split.
      * intros H [Heq | Hin]; [now apply Hne | now apply H].
      * intros H Hin. apply H. now right.
Qed.

Module DictFacts.

Lemma mem_get (k : string) (d : dict) :
  Dict.mem k d = match Dict.get k d with Some _ => true | None => false end.
Proof.
  induction d as [|[k' v] d IH]; simpl; [reflexivity|].
  now destruct (String.eqb k k').
Qed.

Lemma get_set_same (k : string) (v : value) (d : dict) :
  Dict.get k (Dict.set k v d) = Some v.
Proof.
  induction d as [|[k' v'] d IH]; simpl.
  - now rewrite String.eqb_refl.
  - destruct (String.eqb k k') eqn:E; simpl; now rewrite E.
Qed.

Lemma get_set_other (k k' : string) (v : value) (d : dict) :
  k <> k' -> Dict.get k (Dict.set k' v d) = Dict.get k d.
Proof.
  intros Hne. induction d as [|[k2 v2] d IH]; simpl.
  - apply String.eqb_neq in Hne. now rewrite Hne.
  - destruct (String.eqb k' k2) eqn:E; simpl.
    + apply String.eqb_eq in E. subst k2.
      apply String.eqb_neq in Hne. now rewrite Hne.
    + now rewrite IH.
Qed.

Lemma pop_absent (k : string) (d : dict) :
  Dict.get k d = None -> Dict.pop k d = d.
Proof.
  induction d as [|[k' v] d IH]; simpl; [reflexivity|].
  destruct (String.eqb k k'); [discriminate|].
  intros H. now rewrite IH.
Qed.

Lemma keys_pop_other (k k' : string) (d : dict) :
  k <> k' -> In k (Dict.keys d) -> In k (Dict.keys (Dict.pop k' d)).
Proof.
  intros Hne. induction d as [|[k2 v2] d IH]; simpl; [tauto|].
  destruct (String.eqb k' k2) eqn:E.
  - apply String.eqb_eq in E. subst k2.
    intros [Heq | Hin]; [now elim Hne | exact Hin].
  - simpl. intros [Heq | Hin]; [now left | right; now apply IH].
Qed.

Lemma get_pop_other (k k' : string) (d : dict) :
  k <> k' -> Dict.get k (Dict.pop k' d) = Dict.get k d.
Proof.
  intros Hne. induction d as [|[k2 v2] d IH]; simpl; [reflexivity|].
  destruct (String.eqb k' k2) eqn:E; simpl.
  - apply String.eqb_eq in E. subst k2.
    apply String.eqb_neq in Hne. now rewrite Hne.
  - now rewrite IH.
Qed.

Lemma set_set (k : string) (v v' : value) (d : dict) :
  Dict.set k v' (Dict.set k v d) = Dict.set k v' d.
Proof.
  induction d as [|[k2 v2] d IH]; simpl.
  - now rewrite String.eqb_refl.
  - destruct (String.eqb k k2) eqn:E; simpl; rewrite E; [reflexivity|].
    now rewrite IH.
Qed.

(** Setting two keys commutes when the second is already there, as it
    then keeps its place. *)
Lemma set_comm (k k' : string) (v v' : value) (d : dict) :
  k <> k' -> Dict.mem k' d = true ->
  Dict.set k v (Dict.set k' v' d) = Dict.set k' v' (Dict.set k v d).
Proof.
  intros Hne. induction d as [|[k2 v2] d IH]; simpl; [discriminate|].
  destruct (String.eqb k' k2) eqn:E'.
  - intros _. apply String.eqb_eq in E'. subst k2.
    apply String.eqb_neq in Hne. simpl. rewrite Hne. simpl.
    now rewrite String.eqb_refl.
  - intros Hmem. destruct (String.eqb k k2) eqn:E; simpl; rewrite E, E'.
    + reflexivity.
    + now rewrite IH.
Qed.

End DictFacts.

(** ** What a computation adds to the trace *)

Section Traces.

Context {World : Type}.
Variable P : event -> Prop.

Lemma emits_ret {A} (a : A) : emits_only (World:=World) P (ret a).
Proof. intros s. exists []. now rewrite app_nil_r. Qed.

Lemma emits_fail_json {A} (msg : string) :
  emits_only (World:=World) P (fail_json (A:=A) msg).
Proof. intros s. exists []. now rewrite app_nil_r. Qed.

Lemma emits_exit_json {A} : emits_only (World:=World) P (exit_json (A:=A)).
Proof. intros s. exists []. now rewrite app_nil_r. Qed.

Lemma emits_raise {A} (exn : string) :
  emits_only (World:=World) P (raise (A:=A) exn).
Proof. intros s. exists []. now rewrite app_nil_r. Qed.

Lemma emits_set_changed (c : bool) :
  emits_only (World:=World) P (set_changed c).
Proof. intros s. exists []. simpl. now rewrite app_nil_r. Qed.

Lemma emits_bind {A B} (m : M World A) (f : A -> M World B) :
  emits_only (World:=World) P m ->
  (forall a, emits_only (World:=World) P (f a)) ->
  emits_only (World:=World) P (bind m f).
Proof.
  intros Hm Hf s. unfold bind. destruct (Hm s) as (t & Ht & HP).
  destruct (m s) as [[a | msg | c | exn] s1]; simpl in Ht;
    try (exists t; now split).
  destruct (Hf a s1) as (t' & Ht' & HP'). exists (t ++ t')%list.
  rewrite Ht', Ht, app_assoc. split; [reflexivity|].
  apply Forall_app. now split.
Qed.

Lemma emits_call {A} (f : World -> reply A * World) (ev : reply A -> event) :
  (forall r, P (ev r)) -> emits_only (World:=World) P (call f ev).
Proof.
  intros Hev s. unfold call. destruct (f (world s)) as [r w].
  exists [ev r]. split; [now destruct r|].
  constructor; [apply Hev | constructor].
Qed.

Lemma emits_call_changing (f : World -> reply bool * World)
  (ev : reply bool -> event) :
  (forall r, P (ev r)) -> emits_only (World:=World) P (call_changing f ev).
Proof.
  intros Hev s. unfold call_changing. destruct (f (world s)) as [r w].
  exists [ev r]. split; [now destruct r|].
  constructor; [apply Hev | constructor].
Qed.

Lemma emits_warn (msg : string) :
  P (EWarn msg) -> emits_only (World:=World) P (warn msg).
Proof.
  intros H s. exists [EWarn msg]. split; [reflexivity|].
  constructor; [exact H | constructor].
Qed.

Lemma emits_getitem (d : dict) (k : string) :
  emits_only (World:=World) P (getitem d k).
Proof.
  unfold getitem.
  destruct (Dict.get k d); [apply emits_ret | apply emits_raise].
Qed.

Lemma emits_mapM {A B} (f : A -> M World B) (l : list A) :
  (forall a, emits_only (World:=World) P (f a)) ->
  emits_only (World:=World) P (mapM f l).
Proof.
  intros Hf. induction l as [|x l IH]; simpl; [apply emits_ret|].
  apply emits_bind; [apply Hf|]. intros y.
  apply emits_bind; [exact IH|]. intros ys. apply emits_ret.
Qed.

Lemma emits_forM_ {A} (l : list A) (f : A -> M World unit) :
  (forall a, emits_only (World:=World) P (f a)) ->
  emits_only (World:=World) P (forM_ l f).
Proof.
  intros Hf. induction l as [|x l IH]; simpl; [apply emits_ret|].
  apply emits_bind; [apply Hf | intros _; exact IH].
Qed.

End Traces.

Ltac emits :=
  repeat first
    [ apply emits_ret | apply emits_fail_json | apply emits_exit_json
    | apply emits_raise | apply emits_getitem | apply emits_set_changed
    | apply emits_call; intros; reflexivity
    | apply emits_call_changing; intros; reflexivity
    | apply emits_mapM; intros
    | apply emits_forM_; intros
    | apply emits_bind; [|intros]
    | match goal with
      | |- emits_only _ (if ?b then _ else _) => destruct b
      | |- emits_only _ (match ?x with _ => _ end) => destruct x
      | |- emits_only _ (let (_, _) := ?x in _) => destruct x
      end ].


(** ** The installation medium module *)

Section Medium.

Context {World : Type} (R : remote World).

Lemma bind_assoc {A B C} (m : M World A) (f : A -> M World B)
  (g : B -> M World C) (s : mstate World) :
  bind (bind m f) g s = bind m (fun x => bind (f x) g) s.
Proof.
  unfold bind. now destruct (m s) as [[a | msg | c | exn] s1].
Qed.

(** The wildcard checks never touch the module state and never exit
    successfully. *)
Lemma medium_check_wildcard_cases (module : medium_module)
  (s : mstate World) :
  medium_check_wildcard module s = (Ret tt, s)
  \/ (exists msg, medium_check_wildcard module s = (FailJson msg, s))
  \/ (exists exn, medium_check_wildcard module s = (Raise exn, s)).
Proof.
  unfold medium_check_wildcard, bind, getitem, fail_json, ret, raise.
  destruct (is_present_with_defaults (m_state module)); [eauto|].
  destruct (Dict.get "updated_name" (m_params module)) as [un|]; [|eauto].
  destruct (truthy un); [eauto|].
  destruct (is_absent (m_state module)); [|eauto].
  destruct (negb _); eauto.
Qed.

(** The body of [main] once the name is known to be the wildcard. *)
Lemma medium_main_wildcard (module : medium_module) (s : mstate World) :
  Dict.get "name" (m_foreman_params module) = Some (VStr "*") ->
  medium_main R module s
  = api_connection
      (bind (medium_check_wildcard module) (fun _ =>
       bind (medium_lookup R module true) (fun '(entities, entity) =>
       bind (medium_resolve R module true entity) (fun module_params =>
       medium_ensure R true module_params entities entity)))) s.
Proof.
  intros Hname. unfold medium_main, api_connection, bind at 1, getitem.
  rewrite Hname. reflexivity.
Qed.

Lemma medium_main_defaults_or_rename (module : medium_module) (w : World) :
  Dict.get "name" (m_foreman_params module) = Some (VStr "*") ->
  (m_state module = PresentWithDefaults
   \/ exists v, Dict.get "updated_name" (m_params module) = Some v
                /\ truthy v = true) ->
  medium_main R module (init w)
  = (FailJson (if is_present_with_defaults (m_state module)
               then msg_with_defaults else msg_updated_name),
     MState w false [EApiConnect; EApiRelease]).
Proof.
  intros Hname Hcase.
  rewrite (medium_main_wildcard _ _ Hname).
  unfold api_connection, bind at 1, medium_check_wildcard, bind at 1.
  destruct (is_present_with_defaults (m_state module)) eqn:Hst.
  - reflexivity.
  - destruct Hcase as [Hc | (v & Hv & Ht)].
    + rewrite Hc in Hst. discriminate.
    + cbn [ret]. unfold bind at 1, bind at 1, getitem. rewrite Hv.
      cbn [ret]. rewrite Ht. reflexivity.
Qed.

(** C5: with the name [*], the state [present_with_defaults] or a truthy
    [updated_name] ends the module with the fatal message of that case;
    the connection was acquired and released and no remote call made. *)
Theorem medium_wildcard_rejects_defaults_and_rename
  (module : medium_module) (w : World) :
  Dict.get "name" (m_foreman_params module) = Some (VStr "*") ->
  (m_state module = PresentWithDefaults
   \/ exists v, Dict.get "updated_name" (m_params module) = Some v
                /\ truthy v = true) ->
  let result := medium_main R module (init w) in
  fst result
  = FailJson (if is_present_with_defaults (m_state module)
              then msg_with_defaults else msg_updated_name)
  /\ trace (snd result) = [EApiConnect; EApiRelease]
  /\ remote_calls (trace (snd result)) = [].
Proof.
  intros Hname Hcase result. subst result.
  rewrite (medium_main_defaults_or_rename _ _ Hname Hcase). cbn. auto.
Qed.

Lemma keys_not_name_entity (d : dict) (extra : string) :
  In extra (Dict.keys d) -> extra <> "name" -> extra <> "entity" ->
  list_string_eqb (Dict.keys d) ["name"; "entity"] = false.
Proof.
  intros Hin Hn He.
  destruct d as [|[k1 v1] [|[k2 v2] [|[k3 v3] d]]]; try reflexivity.
  - simpl. apply andb_false_r.
  - simpl. destruct (String.eqb k1 "name") eqn:E1; [|reflexivity].
    destruct (String.eqb k2 "entity") eqn:E2; [|reflexivity].
    apply String.eqb_eq in E1, E2. subst. simpl in Hin.
    destruct Hin as [<- | [<- | []]]; congruence.
  - simpl. now rewrite !andb_false_r.
Qed.

Lemma medium_main_absent_parameters (module : medium_module) (w : World)
  (un : value) (extra : string) :
  Dict.get "name" (m_foreman_params module) = Some (VStr "*") ->
  m_state module = Absent ->
  Dict.get "updated_name" (m_params module) = Some un ->
  In extra (Dict.keys (m_foreman_params module)) ->
  extra <> "name" -> extra <> "entity" ->
  medium_main R module (init w)
  = (FailJson
       (if truthy un then msg_updated_name
        else msg_further_parameters
             ++ str_keys (Dict.keys (Dict.pop "entity"
                            (Dict.pop "name" (m_foreman_params module))))
             ++ " "),
     MState w false [EApiConnect; EApiRelease]).
Proof.
  intros Hname Hst Hun Hin Hn He.
  rewrite (medium_main_wildcard _ _ Hname).
  unfold api_connection, bind at 1, medium_check_wildcard, bind at 1.
  rewrite Hst. cbn [is_present_with_defaults ret is_absent].
  unfold bind at 1, bind at 1, getitem. rewrite Hun. cbn [ret].
  rewrite (keys_not_name_entity _ _ Hin Hn He).
  now destruct (truthy un).
Qed.

(** C1, as amended: with the name [*] and the state absent, a parameter
    besides the name (and the helper's own [entity] key) ends the module
    with a fatal message before any remote call; unless a truthy
    [updated_name] was refused first, the message lists the parameters
    that are left once [name] and [entity] are taken out, so it names
    every offending one. *)
Theorem medium_wildcard_absent_rejects_parameters
  (module : medium_module) (w : World) (un : value) (extra : string) :
  Dict.get "name" (m_foreman_params module) = Some (VStr "*") ->
  m_state module = Absent ->
  Dict.get "updated_name" (m_params module) = Some un ->
  In extra (Dict.keys (m_foreman_params module)) ->
  extra <> "name" -> extra <> "entity" ->
  let result := medium_main R module (init w) in
  let offending :=
    Dict.keys (Dict.pop "entity" (Dict.pop "name" (m_foreman_params module)))
  in
  (exists msg, fst result = FailJson msg)
  /\ trace (snd result) = [EApiConnect; EApiRelease]
  /\ remote_calls (trace (snd result)) = []
  /\ (truthy un = false ->
      fst result
      = FailJson (msg_further_parameters ++ str_keys offending ++ " ")
      /\ forall k, In k (Dict.keys (m_foreman_params module)) ->
                   k <> "name" -> k <> "entity" ->
                   In k offending
                   /\ occurs_in (repr_str k)
                        (msg_further_parameters ++ str_keys offending ++ " ")).
Proof.
  intros Hname Hst Hun Hin Hn He result offending. subst result.
  rewrite (medium_main_absent_parameters _ _ _ _ Hname Hst Hun Hin Hn He).
  cbn [fst snd trace remote_calls filter is_remote_call].
  split; [eauto|]. split; [reflexivity|]. split; [reflexivity|].
  intros Hun'. rewrite Hun'. split; [reflexivity|].
  intros k Hk Hkn Hke.
  assert (Hoff : In k offending).
  { apply DictFacts.keys_pop_other; [assumption|].
    apply DictFacts.keys_pop_other; assumption. }
  split; [exact Hoff|].
  apply occurs_in_app_l, occurs_in_app_r.
  unfold str_keys. apply occurs_in_app_l, occurs_in_app_r.
  now apply occurs_in_concat, in_map.
Qed.

Lemma emits_medium_resolve module affects_multiple entity :
  emits_only not_listing (medium_resolve R module affects_multiple entity).
Proof.
  unfold medium_resolve, medium_derives, subscript, first, len, not_listing.
  emits.
Qed.

Lemma emits_medium_ensure affects_multiple module_params entities entity :
  emits_only not_listing
    (medium_ensure R affects_multiple module_params entities entity).
Proof. unfold medium_ensure, not_listing. emits. Qed.

Lemma emits_medium_show module (entities : list dict) :
  emits_only (World:=World) not_listing
    (if negb (is_absent (m_state module)) then
       mapM (fun entity : dict =>
               bind (getitem entity "id") (fun id =>
               call (show_resource R "media" id) (EShowResource "media" id)))
            entities
     else ret entities).
Proof. unfold not_listing. emits. Qed.

Lemma medium_main_listing (module : medium_module) (w : World) :
  Dict.get "name" (m_foreman_params module) = Some (VStr "*") ->
  let result := medium_main R module (init w) in
  In (EListResource "media" (inr [])) (trace (snd result)) ->
  result
  = (ExitJson false,
     MState (snd (list_resource R "media" w)) false
       [EApiConnect; EListResource "media" (inr []); EApiRelease]).
Proof.
  intros Hname result. subst result.
  remember (medium_main R module (init w)) as res eqn:Hres.
  rewrite (medium_main_wildcard _ _ Hname) in Hres.
  unfold api_connection, bind at 1 in Hres.
  destruct (medium_check_wildcard_cases module (log EApiConnect (init w)))
    as [E | [(msg & E) | (exn & E)]]; rewrite E in Hres;
    try (subst res; cbn; intros [H | [H | []]]; discriminate).
  cbv beta iota in Hres. unfold medium_lookup at 1 in Hres.
  rewrite bind_assoc in Hres. unfold bind at 1, call at 1 in Hres.
  cbn [world log init] in Hres.
  destruct (list_resource R "media" w) as [[msg | entities] w1].
  - subst res. cbn. intros [H | [H | [H | []]]]; discriminate.
  - destruct entities as [|e entities].
    + subst res. destruct (is_absent (m_state module)); reflexivity.
    + rewrite bind_assoc in Hres.
      match type of Hres with
      | context [bind ?m ?f ?s] =>
          assert (Hem : emits_only not_listing (bind m f));
          [|destruct (Hem s) as (t & Ht & HP)]
      end.
      { apply emits_bind; [apply emits_medium_show|]. intros ents.
        apply emits_bind; [destruct ents; emits|]. intros [ents' ent].
        apply emits_bind; [apply emits_medium_resolve|]. intros mp.
        apply emits_medium_ensure. }
      destruct (bind _ _ _) as [r s1]. subst res.
      cbn [snd trace log] in *. rewrite Ht. cbn [changed trace app].
      intros [H | [H | H]]; try discriminate.
      apply in_app_or in H. destruct H as [H | [H | []]]; [|discriminate].
      rewrite Forall_forall in HP. apply HP in H. discriminate.
Qed.

(** C6: with the name [*], when the listing of the media is made and
    gives back no entity, the module exits successfully with
    [changed=false], and the listing is the only remote call. *)
Theorem medium_wildcard_empty_listing_exits
  (module : medium_module) (w : World) :
  Dict.get "name" (m_foreman_params module) = Some (VStr "*") ->
  let result := medium_main R module (init w) in
  In (EListResource "media" (inr [])) (trace (snd result)) ->
  fst result = ExitJson false
  /\ remote_calls (trace (snd result)) = [EListResource "media" (inr [])].
Proof.
  intros Hname result Hin. subst result.
  rewrite (medium_main_listing _ _ Hname Hin). split; reflexivity.
Qed.

(** C3: for a named medium in a state other than absent, whose resolved
    [operatingsystems] hold one reference and whose parameters have no
    [os_family]: when the lookup by name found nothing, that operating
    system is shown and its [family] becomes the [os_family] given to the
    reconciliation; when it found an entity, nothing is shown and the
    resolved parameters are given to the reconciliation as they are. With
    the name [*], where every entity worked on exists, the resolved
    parameters are never added to. *)
Theorem medium_os_family_derived_iff_new
  (module : medium_module) (w w1 w2 : World) (name : value)
  (entity resolved : option dict) (module_params : dict) (os : value) :
  is_absent (m_state module) = false ->
  Dict.get "name" (m_foreman_params module) = Some name ->
  eq_str name "*" = false ->
  find_resource_by_name R "media" name w = (inr entity, w1) ->
  resolve_entities R (m_foreman_params module) entity w1
  = (inr (resolved, module_params), w2) ->
  Dict.get "operatingsystems" module_params = Some (VList [os]) ->
  Dict.get "os_family" module_params = None ->
  let result := medium_main R module (init w) in
  let found := EFindResourceByName "media" name (inr entity) in
  let resolution :=
    EResolveEntities (m_foreman_params module) entity
      (inr (resolved, module_params)) in
  (entity = None ->
   forall (fields shown : dict) (id family : value) (w3 : World),
     os = VDict fields ->
     Dict.get "id" fields = Some id ->
     show_resource R "operatingsystems" id w2 = (inr shown, w3) ->
     Dict.get "family" shown = Some family ->
     let derived := Dict.set "os_family" family module_params in
     Dict.get "os_family" derived = Some family
     /\ trace (snd result)
        = [EApiConnect; found; resolution;
           EShowResource "operatingsystems" id (inr shown);
           EEnsureEntity "media" derived None
             (fst (ensure_entity R "media" derived None w3));
           EApiRelease])
  /\ (forall existing, entity = Some existing ->
      trace (snd result)
      = [EApiConnect; found; resolution;
         EEnsureEntity "media" module_params entity
           (fst (ensure_entity R "media" module_params entity w2));
         EApiRelease])
  /\ (forall any s,
      medium_resolve R module true any s
      = bind (call (resolve_entities R (m_foreman_params module) any)
                   (EResolveEntities (m_foreman_params module) any))
             (fun '(_, params) => ret params) s).
Proof.
  intros Habs Hname Hstar Hfind Hres Hos Hfam result found resolution.
  assert (Hmem : Dict.mem "operatingsystems" module_params = true)
    by (rewrite DictFacts.mem_get, Hos; reflexivity).
  assert (Hnofam : Dict.mem "os_family" module_params = false)
    by (rewrite DictFacts.mem_get, Hfam; reflexivity).
  assert (Hmain :
    result
    = let (r, s') :=
        bind (medium_resolve R module false entity) (fun params =>
              medium_ensure R false params [] entity)
             (MState w1 false [EApiConnect; found]) in
      (r, log EApiRelease s')).
  { subst result. unfold medium_main, api_connection, bind at 1, getitem.
    rewrite Hname. cbn [ret]. rewrite Hstar.
    unfold bind at 1. cbn [ret]. unfold bind at 1, medium_lookup.
    unfold bind at 1, getitem. rewrite Hname. cbn [ret].
    unfold bind at 1, call. cbn [world log init]. rewrite Hfind.
    reflexivity. }
  split; [|split].
  - intros -> fields shown id family w3 -> Hid Hshow Hfamily derived.
    split; [apply DictFacts.get_set_same|]. subst derived. rewrite Hmain.
    cbv [bind call call_changing getitem ret medium_resolve medium_derives
         medium_ensure len first subscript world changed].
    rewrite Habs. cbn [negb].
    rewrite Hres. cbv beta iota. rewrite Hmem. cbn [negb andb].
    rewrite Hos. cbn [length Nat.eqb]. rewrite Hnofam. cbn [negb andb].
    rewrite Hid, Hshow, Hfamily. cbn [negb].
    destruct (ensure_entity R "media" _ None w3) as [[msg | c] w4];
      reflexivity.
  - intros existing ->. rewrite Hmain.
    cbv [bind call call_changing getitem ret medium_resolve medium_derives
         medium_ensure len first subscript world changed].
    rewrite Habs. cbn [negb].
    rewrite Hres. cbv beta iota. rewrite Hmem. cbn [negb andb].
    rewrite Hos. cbn [length Nat.eqb]. rewrite Hnofam.
    cbn [negb andb].
    destruct (ensure_entity R "media" _ _ w2) as [[msg | c] w4];
      reflexivity.
  - intros any s. unfold medium_resolve. rewrite Habs. cbn [negb].
    unfold bind, call.
    destruct (resolve_entities R _ any (world s)) as [[msg | [ent params]] w'];
      [reflexivity|].
    unfold medium_derives. cbn [negb]. rewrite andb_false_r. reflexivity.
Qed.

End Medium.

(** ** The host module *)

Section Host.

Context {World : Type} (R : remote World).

Lemma mapM_prune (l : list value) (s : mstate World) :
  forallb is_dict l = true ->
  mapM (fun obj : value =>
          match obj with
          | VDict d => ret (prune d)
          | _ => raise "AttributeError"
          end) l s
  = (Ret (map prune (dicts_of l)), s).
Proof.
  induction l as [|obj l IH]; simpl; [reflexivity|].
  intros H. apply andb_prop in H. destruct H as [Hobj Hl].
  destruct obj; try discriminate. unfold bind at 1, ret at 1.
  unfold bind at 1. now rewrite IH.
Qed.

Lemma filter_interfaces_typed (l : list value) (s : mstate World) :
  forallb is_dict l = true ->
  filter_interfaces (VList l) s = (Ret (pruned_interfaces l), s).
Proof.
  intros H. unfold filter_interfaces, bind at 1, iter, ret at 1.
  unfold bind. now rewrite mapM_prune.
Qed.

Lemma has_type_set_other ty (k k' : string) (v : value) (d : dict) :
  k <> k' -> has_type ty k (Dict.set k' v d) = has_type ty k d.
Proof. intros H. unfold has_type. now rewrite DictFacts.get_set_other. Qed.

Lemma get_couple (k : string) (fp : dict) :
  k <> "managed" -> k <> "build" ->
  Dict.get k (couple_build_managed fp) = Dict.get k fp.
Proof.
  intros H1 H2. unfold couple_build_managed.
  destruct (build_set fp); [now apply DictFacts.get_set_other|].
  destruct (_ && _); [now apply DictFacts.get_set_other | reflexivity].
Qed.

Lemma get_lower_mac (k : string) (fp : dict) :
  k <> "mac" -> Dict.get k (lower_mac fp) = Dict.get k fp.
Proof.
  intros H. unfold lower_mac.
  destruct (Dict.get "mac" fp) as [[]|]; try reflexivity.
  now apply DictFacts.get_set_other.
Qed.

Lemma get_derive_owner_type (k : string) (fp : dict) :
  k <> "owner_type" -> Dict.get k (derive_owner_type fp) = Dict.get k fp.
Proof.
  intros H. unfold derive_owner_type.
  destruct (Dict.mem "owner" fp); [now apply DictFacts.get_set_other|].
  destruct (Dict.mem "owner_group" fp);
    [now apply DictFacts.get_set_other | reflexivity].
Qed.

Lemma get_prune_interfaces (k : string) (fp : dict) :
  k <> "interfaces_attributes" ->
  Dict.get k (prune_interfaces fp) = Dict.get k fp.
Proof.
  intros H. unfold prune_interfaces.
  destruct (Dict.get "interfaces_attributes" fp) as [[]|]; try reflexivity.
  now apply DictFacts.get_set_other.
Qed.

(** On parameters of the declared types the normalisation succeeds; it
    gives [normalized] and adds the warnings to the trace. *)
Lemma host_normalize_typed (fp : dict) (s : mstate World) :
  host_spec_typed fp = true ->
  host_normalize fp s
  = (Ret (normalized fp),
     MState (world s) (changed s) (trace s ++ normalize_warnings fp)).
Proof.
  intros Hty. unfold host_spec_typed in Hty.
  repeat (apply andb_prop in Hty; destruct Hty as [Hty ?]).
  assert (Hmac : has_type is_str "mac" (couple_build_managed fp) = true).
  { unfold has_type. rewrite get_couple by discriminate. assumption. }
  assert (Hia : has_type is_list_of_dict "interfaces_attributes"
                  (derive_owner_type (lower_mac (couple_build_managed fp)))
                = true).
  { unfold has_type.
    rewrite get_derive_owner_type, get_lower_mac, get_couple
      by discriminate.
    assumption. }
  unfold host_normalize, normalized, bind at 1.
  assert (E1 :
    (if (Dict.mem "build" fp && truthy_at "build" fp)%bool
     then bind (if (Dict.mem "managed" fp
                    && negb (truthy_at "managed" fp))%bool
                then warn "when 'build'=True, 'managed' is ignored and forced to True"
                else ret tt)
               (fun _ => ret (Dict.set "managed" (VBool true) fp))
     else if (negb (Dict.mem "build" fp) && Dict.mem "managed" fp
              && negb (truthy_at "managed" fp))%bool
          then ret (Dict.set "build" (VBool false) fp)
          else ret fp) s
    = (Ret (couple_build_managed fp),
       MState (world s) (changed s) (trace s ++ normalize_warnings fp))).
  { unfold couple_build_managed, normalize_warnings, build_set,
      managed_cleared.
    destruct s as [w c t].
    destruct (Dict.mem "build" fp && truthy_at "build" fp)%bool eqn:Eb.
    - cbn [andb]. destruct (Dict.mem "managed" fp
                            && negb (truthy_at "managed" fp))%bool;
        cbn; now rewrite ?app_nil_r.
    - cbn [andb]. rewrite <- andb_assoc.
      destruct (negb (Dict.mem "build" fp)
                && (Dict.mem "managed" fp
                    && negb (truthy_at "managed" fp)))%bool;
        cbn; now rewrite app_nil_r. }
  rewrite E1. clear E1. unfold bind at 1.
  set (fp1 := couple_build_managed fp) in *.
  set (s1 := MState _ _ _).
  assert (E2 :
    (match Dict.get "mac" fp1 with
     | Some (VStr mac) => ret (Dict.set "mac" (VStr (lower mac)) fp1)
     | Some _ => raise "AttributeError"
     | None => ret fp1
     end) s1 = (Ret (lower_mac fp1), s1)).
  { unfold lower_mac, has_type in *.
    destruct (Dict.get "mac" fp1) as [[]|]; try discriminate; reflexivity. }
  rewrite E2. clear E2. fold (derive_owner_type (lower_mac fp1)).
  set (fp3 := derive_owner_type (lower_mac fp1)) in *.
  unfold prune_interfaces, has_type in *.
  destruct (Dict.get "interfaces_attributes" fp3) as [[]|];
    try discriminate; [|reflexivity].
  unfold bind. rewrite filter_interfaces_typed by assumption. reflexivity.
Qed.

(** [main] up to the [with] block, for a state other than absent. *)
Lemma host_main_normalizes (st : entity_state) (fp : dict) (name : string)
  (w : World) :
  is_absent st = false ->
  Dict.get "name" fp = Some (VStr name) ->
  str_contains "." name = true ->
  host_spec_typed fp = true ->
  host_normalize fp (init w)
  = (Ret (normalized fp), MState w false (normalize_warnings fp))
  /\ host_main R (HostModule st fp) (init w)
     = api_connection (host_reconcile R false (normalized fp))
         (MState w false (normalize_warnings fp)).
Proof.
  intros Habs Hname Hdot Hty.
  assert (Hn : host_normalize fp (init w)
               = (Ret (normalized fp),
                  MState w false (normalize_warnings fp)))
    by (now rewrite host_normalize_typed).
  split; [exact Hn|].
  unfold host_main. cbn [h_foreman_params h_state]. rewrite Habs.
  unfold bind at 1, getitem. rewrite Hname. cbn [ret].
  unfold bind at 1, contains. cbn [ret]. rewrite Hdot. cbn [negb].
  unfold bind at 1. cbn [ret]. unfold bind at 1. now rewrite Hn.
Qed.

(** C9: a name without a dot ends the module with the FQDN message,
    whatever the state; nothing was called, the connection was not
    acquired, and the module state is as it was. *)
Theorem host_name_must_be_fqdn (st : entity_state) (fp : dict)
  (name : string) (w : World) :
  Dict.get "name" fp = Some (VStr name) ->
  ~ In "."%char (list_ascii_of_string name) ->
  host_main R (HostModule st fp) (init w)
  = (FailJson "The hostname must be FQDN", init w)
  /\ trace (snd (host_main R (HostModule st fp) (init w))) = [].
Proof.
  intros Hname Hdot. apply str_contains_dot in Hdot.
  assert (E : host_main R (HostModule st fp) (init w)
              = (FailJson "The hostname must be FQDN", init w)).
  { unfold host_main. cbn [h_foreman_params h_state].
    unfold bind at 1, getitem. rewrite Hname. cbn [ret].
    unfold bind at 1, contains. cbn [ret]. rewrite Hdot. reflexivity. }
  now rewrite E.
Qed.

(** C2: in a state other than absent, on parameters of the declared
    types: with [build] true the normalised parameters have [managed]
    true, and the warning is emitted exactly when [managed] was given as
    false; with [build] not given and [managed] false they have [build]
    false. The normalised parameters are those the [with] block works
    on. *)
Theorem host_build_forces_managed (st : entity_state) (fp : dict)
  (name : string) (w : World) :
  is_absent st = false ->
  Dict.get "name" fp = Some (VStr name) ->
  str_contains "." name = true ->
  host_spec_typed fp = true ->
  exists fp' warnings,
    host_normalize fp (init w) = (Ret fp', MState w false warnings)
    /\ host_main R (HostModule st fp) (init w)
       = api_connection (host_reconcile R false fp')
           (MState w false warnings)
    /\ (Dict.get "build" fp = Some (VBool true) ->
        Dict.get "managed" fp' = Some (VBool true)
        /\ warnings
           = match Dict.get "managed" fp with
             | Some (VBool false) => [EWarn msg_build_managed]
             | _ => []
             end)
    /\ (Dict.get "build" fp = None ->
        Dict.get "managed" fp = Some (VBool false) ->
        Dict.get "build" fp' = Some (VBool false) /\ warnings = []).
Proof.
  intros Habs Hname Hdot Hty.
  destruct (host_main_normalizes st fp name w Habs Hname Hdot Hty)
    as [Hn Hm].
  exists (normalized fp), (normalize_warnings fp).
  split; [exact Hn|]. split; [exact Hm|].
  unfold host_spec_typed in Hty.
  repeat (apply andb_prop in Hty; destruct Hty as [Hty ?]).
  unfold normalized, normalize_warnings.
  split.
  - intros Hb.
    rewrite get_prune_interfaces, get_derive_owner_type, get_lower_mac
      by discriminate.
    assert (Hbs : build_set fp = true)
      by (unfold build_set, truthy_at; rewrite DictFacts.mem_get, Hb;
          reflexivity).
    unfold couple_build_managed. rewrite Hbs.
    split; [apply DictFacts.get_set_same|].
    unfold managed_cleared, truthy_at, has_type in *.
    rewrite DictFacts.mem_get.
    destruct (Dict.get "managed" fp) as [[| [] | | | |]|];
      try discriminate; reflexivity.
  - intros Hb Hmg.
    rewrite get_prune_interfaces, get_derive_owner_type, get_lower_mac
      by discriminate.
    unfold couple_build_managed, build_set, managed_cleared, truthy_at.
    rewrite !DictFacts.mem_get, Hb, Hmg. cbn.
    split; [apply DictFacts.get_set_same | reflexivity].
Qed.

Lemma mem_normalized_stage (k : string) (fp : dict) :
  k <> "managed" -> k <> "build" -> k <> "mac" ->
  Dict.mem k (lower_mac (couple_build_managed fp)) = Dict.mem k fp.
Proof.
  intros H1 H2 H3.
  now rewrite !DictFacts.mem_get, get_lower_mac, get_couple.
Qed.

(** C7: input with both [owner] and [owner_group] is refused by the
    argument check before [main] runs, whatever else it holds; in a state
    other than absent, input with one of the two gets [owner_type] set to
    [User] for [owner] and to [Usergroup] for [owner_group]. *)
Theorem host_owner_exclusive_and_typed (st : entity_state) (args : dict)
  (w : World) :
  (Dict.mem "owner" args = true -> Dict.mem "owner_group" args = true ->
   host_invocation R st args (init w)
   = (FailJson "parameters are mutually exclusive: owner|owner_group",
      init w))
  /\ (forall name,
      is_absent st = false ->
      Dict.get "name" args = Some (VStr name) ->
      str_contains "." name = true ->
      host_spec_typed args = true ->
      Dict.mem "owner" args <> Dict.mem "owner_group" args ->
      exists fp' warnings,
        host_normalize args (init w) = (Ret fp', MState w false warnings)
        /\ host_invocation R st args (init w)
           = api_connection (host_reconcile R false fp')
               (MState w false warnings)
        /\ Dict.get "owner_type" fp'
           = Some (VStr (if Dict.mem "owner" args then "User"
                         else "Usergroup"))).
Proof.
  split.
  - intros Ho Hg. unfold host_invocation, check_mutually_exclusive,
      host_mutually_exclusive.
    cbn [filter]. rewrite Ho, Hg. reflexivity.
  - intros name Habs Hname Hdot Hty Hone.
    destruct (host_main_normalizes st args name w Habs Hname Hdot Hty)
      as [Hn Hm].
    exists (normalized args), (normalize_warnings args).
    split; [exact Hn|]. split.
    + unfold host_invocation, check_mutually_exclusive,
        host_mutually_exclusive.
      cbn [filter].
      destruct (Dict.mem "owner" args), (Dict.mem "owner_group" args);
        try (now elim Hone); exact Hm.
    + unfold normalized.
      rewrite get_prune_interfaces by discriminate.
      unfold derive_owner_type.
      rewrite !mem_normalized_stage by discriminate.
      destruct (Dict.mem "owner" args);
        [apply DictFacts.get_set_same|].
      destruct (Dict.mem "owner_group" args);
        [apply DictFacts.get_set_same | now elim Hone].
Qed.

(** C10, as amended: in the state absent a host with a dotted name goes
    to the reconciliation with its parameters as given, less the
    [puppetclasses] key: no warning, no lookup, no lower-casing, no
    [owner_type], no pruning; only the connection and [run] appear in the
    trace. *)
Theorem host_absent_skips_normalization (fp : dict) (name : string)
  (w : World) :
  Dict.get "name" fp = Some (VStr name) ->
  str_contains "." name = true ->
  let params := Dict.pop "puppetclasses" fp in
  trace (snd (host_main R (HostModule Absent fp) (init w)))
  = [EApiConnect; ERun params (fst (run R params w)); EApiRelease]
  /\ (forall k, k <> "puppetclasses" -> Dict.get k params = Dict.get k fp)
  /\ (Dict.get "puppetclasses" fp = None -> params = fp).
Proof.
  intros Hname Hdot params. split; [|split].
  - unfold host_main. cbn [h_foreman_params h_state is_absent negb].
    unfold bind at 1, getitem. rewrite Hname. cbn [ret].
    unfold bind at 1, contains. cbn [ret]. rewrite Hdot. cbn [negb].
    unfold bind at 1. cbn [ret]. unfold bind at 1. cbn [ret].
    unfold api_connection, host_reconcile. cbn [negb].
    unfold bind at 1. cbn [ret]. fold params.
    unfold bind at 1, call. cbn [world log init].
    destruct (run R params w) as [[msg | [entity chg]] w1]; reflexivity.
  - intros k Hk. now apply DictFacts.get_pop_other.
  - apply DictFacts.pop_absent.
Qed.

Lemma emits_host_normalize (fp : dict) :
  emits_only (World:=World) only_warnings (host_normalize fp).
Proof.
  unfold host_normalize, filter_interfaces, iter, only_warnings.
  emits; now apply emits_warn.
Qed.

Lemma warnings_not_synced (t1 t2 : list event) :
  Forall only_warnings t1 ->
  (synced_puppetclasses (t1 ++ t2) <-> synced_puppetclasses t2)
  /\ (run_gave_environment (t1 ++ t2) <-> run_gave_environment t2).
Proof.
  intros Hw. rewrite Forall_forall in Hw. split; split.
  - intros (e & x & r & H). apply in_app_or in H. destruct H as [H | H].
    + apply Hw in H. discriminate.
    + now exists e, x, r.
  - intros (e & x & r & H). exists e, x, r. apply in_or_app. now right.
  - intros (p & e & c & H & He). apply in_app_or in H.
    destruct H as [H | H].
    + apply Hw in H. discriminate.
    + now exists p, e, c.
  - intros (p & e & c & H & He). exists p, e, c.
    split; [apply in_or_app; now right | exact He].
Qed.

Ltac in_cases H :=
  repeat (destruct H as [H | H]; try discriminate); try contradiction.

(** The [with] block synchronises the puppet classes exactly when the
    state is not absent and [run] gave an entity with an
    [environment_id]. *)
Lemma host_reconcile_sync (desired_absent : bool) (fp : dict)
  (s : mstate World) :
  exists t,
    trace (snd (api_connection (host_reconcile R desired_absent fp) s))
    = (trace s ++ t)%list
    /\ (synced_puppetclasses t
        <-> desired_absent = false /\ run_gave_environment t).
Proof.
  unfold api_connection, host_reconcile.
  unfold bind at 1.
  assert (Hlook : exists fp' s1 t1,
    ((if negb desired_absent
      then call (auto_lookup_entities R fp) (EAutoLookupEntities fp)
      else ret fp) (log EApiConnect s) = (Ret fp', s1)
     \/ exists msg,
         (if negb desired_absent
          then call (auto_lookup_entities R fp) (EAutoLookupEntities fp)
          else ret fp) (log EApiConnect s) = (FailJson msg, s1))
    /\ trace s1 = (trace s ++ EApiConnect :: t1)%list
    /\ forall e, In e t1 -> exists p r, e = EAutoLookupEntities p r).
  { destruct desired_absent; cbn [negb].
    - exists fp, (log EApiConnect s), []. split; [now left|].
      split; [reflexivity | intros e []].
    - unfold call. cbn [world log].
      destruct (auto_lookup_entities R fp (world s)) as [[msg | fp'] w1].
      + exists fp, (MState w1 (changed s)
                      ((trace s ++ [EApiConnect])
                       ++ [EAutoLookupEntities fp (inl msg)])%list),
          [EAutoLookupEntities fp (inl msg)].
        split; [right; now exists msg|]. cbn [trace].
        split; [now rewrite <- app_assoc|].
        intros e [<- | []]. eauto.
      + exists fp', (MState w1 (changed s)
                       ((trace s ++ [EApiConnect])
                        ++ [EAutoLookupEntities fp (inr fp')])%list),
          [EAutoLookupEntities fp (inr fp')].
        split; [now left|]. cbn [trace].
        split; [now rewrite <- app_assoc|].
        intros e [<- | []]. eauto. }
  destruct Hlook as (fp' & s1 & t1 & [E | (msg & E)] & Ht1 & Hlook);
    rewrite E.
  2:{ exists (EApiConnect :: t1 ++ [EApiRelease])%list. cbn [snd log trace].
      rewrite Ht1. split; [now rewrite <- app_assoc|].
      split.
      - intros (e & x & r & H). destruct H as [H | H]; [discriminate|].
        apply in_app_or in H. destruct H as [H | H]; [|in_cases H].
        apply Hlook in H. destruct H as (p & r' & H). discriminate.
      - intros (_ & p & e & c & H & _). destruct H as [H | H];
          [discriminate|].
        apply in_app_or in H. destruct H as [H | H]; [|in_cases H].
        apply Hlook in H. destruct H as (p' & r' & H). discriminate. }
  set (params := Dict.pop "puppetclasses" fp').
  set (expected := match Dict.get "puppetclasses" fp' with
                   | Some v => v
                   | None => VNone
                   end).
  assert (Hpre : forall t2,
    (synced_puppetclasses t2 <-> desired_absent = false
                                 /\ run_gave_environment t2) ->
    (synced_puppetclasses (EApiConnect :: t1 ++ t2)
     <-> desired_absent = false
         /\ run_gave_environment (EApiConnect :: t1 ++ t2))).
  { intros t2 [H1 H2]. split.
    - intros (e & x & r & H). destruct H as [H | H]; [discriminate|].
      apply in_app_or in H. destruct H as [H | H].
      + apply Hlook in H. destruct H as (p & r' & H). discriminate.
      + destruct H1 as (Ha & p & e' & c & Hin & He); [now exists e, x, r|].
        split; [exact Ha|]. exists p, e', c.
        split; [right; apply in_or_app; now right | exact He].
    - intros (Ha & p & e & c & H & He). destruct H as [H | H];
        [discriminate|].
      apply in_app_or in H. destruct H as [H | H].
      + apply Hlook in H. destruct H as (p' & r' & H). discriminate.
      + destruct H2 as (e' & x & r & Hin);
          [split; [exact Ha | now exists p, e, c]|].
        exists e', x, r. right. apply in_or_app. now right. }
  unfold bind at 1, call at 1.
  destruct (run R params (world s1)) as [[msg | [entity chg]] w2].
  - exists (EApiConnect :: t1 ++ [ERun params (inl msg); EApiRelease])%list.
    cbn [snd log trace]. rewrite Ht1.
    split; [now rewrite <- !app_assoc|]. apply Hpre. split.
    + intros (e & x & r & H). in_cases H.
    + intros (_ & p & e & c & H & _). in_cases H.
  - unfold bind at 1, set_changed. cbn [world changed trace].
    destruct desired_absent; cbn [negb].
    + exists (EApiConnect :: t1
              ++ [ERun params (inr (entity, chg)); EApiRelease])%list.
      cbn [snd log trace ret]. rewrite Ht1.
      split; [now rewrite <- !app_assoc|]. apply Hpre. split.
      * intros (e & x & r & H). in_cases H.
      * intros (Ha & _). discriminate.
    + destruct entity as [entity|].
      * destruct (Dict.mem "environment_id" entity) eqn:Henv.
        -- unfold call_changing. cbn [world changed trace].
           destruct (ensure_puppetclasses R "host" entity expected w2)
             as [r w3].
           exists (EApiConnect :: t1
                   ++ [ERun params (inr (Some entity, chg));
                       EEnsurePuppetclasses "host" entity expected r;
                       EApiRelease])%list.
           split.
           { destruct r; cbn [snd log trace]; rewrite Ht1;
               now rewrite <- !app_assoc. }
           apply Hpre. split.
           ++ intros _. split; [reflexivity|].
              exists params, entity, chg. split; [now left | exact Henv].
           ++ intros _. exists entity, expected, r. right. now left.
        -- exists (EApiConnect :: t1
                   ++ [ERun params (inr (Some entity, chg));
                       EApiRelease])%list.
           cbn [snd log trace ret]. rewrite Ht1.
           split; [now rewrite <- !app_assoc|]. apply Hpre. split.
           ++ intros (e & x & r & H). in_cases H.
           ++ intros (_ & p & e & c & H & He). in_cases H.
              injection H as <- <- <-. congruence.
      * exists (EApiConnect :: t1
                ++ [ERun params (inr (None, chg)); EApiRelease])%list.
        cbn [snd log trace raise]. rewrite Ht1.
        split; [now rewrite <- !app_assoc|]. apply Hpre. split.
        -- intros (e & x & r & H). in_cases H.
        -- intros (_ & p & e & c & H & He). in_cases H.
Qed.

Lemma warnings_only_no_sync (t : list event) :
  Forall only_warnings t ->
  (synced_puppetclasses t <-> False /\ run_gave_environment t).
Proof.
  intros Hw. rewrite Forall_forall in Hw. split.
  - intros (e & x & r & H). apply Hw in H. discriminate.
  - intros [[] _].
Qed.

(** C8: over every run of the host module, the puppet classes are
    synchronised exactly when the state is not absent and [run] came back
    with an entity that has an [environment_id]; in the state absent they
    never are. *)
Theorem host_puppetclasses_sync_iff (st : entity_state) (fp : dict)
  (w : World) :
  let t := trace (snd (host_main R (HostModule st fp) (init w))) in
  (synced_puppetclasses t
   <-> is_absent st = false /\ run_gave_environment t)
  /\ (is_absent st = true -> ~ synced_puppetclasses t).
Proof.
  intros t.
  assert (Hiff : synced_puppetclasses t
                 <-> is_absent st = false /\ run_gave_environment t).
  { subst t.
    remember (host_main R (HostModule st fp) (init w)) as res eqn:Hres.
    unfold host_main in Hres. cbn [h_foreman_params h_state] in Hres.
    assert (Hnil : synced_puppetclasses []
                   <-> is_absent st = false /\ run_gave_environment []).
    { split; [intros (e & x & r & []) | intros (_ & p & e & c & [] & _)]. }
    unfold bind at 1, getitem in Hres.
    destruct (Dict.get "name" fp) as [name|]; [|subst res; exact Hnil].
    cbn [ret] in Hres. unfold bind at 1, contains in Hres.
    destruct name; try (subst res; exact Hnil); cbn [ret] in Hres.
    all: match type of Hres with
         | context [bind (if negb ?b then _ else _)] => destruct b
         end; cbn [negb] in Hres; try (subst res; exact Hnil).
    all: unfold bind at 1 in Hres; cbn [ret] in Hres;
      unfold bind at 1 in Hres.
    all: destruct (is_absent st) eqn:Habs; cbn [negb ret] in Hres.
    all: try (subst res;
              destruct (host_reconcile_sync true fp (init w))
                as (t2 & Ht2 & H2); rewrite Ht2; exact H2).
    all: destruct (emits_host_normalize fp (init w)) as (t1 & Ht1 & Hw);
      destruct (host_normalize fp (init w)) as [[fp' | msg | c | exn] s1];
      cbn [snd init trace app] in Ht1; subst res.
    all:
      try (cbn [snd]; rewrite Ht1; split;
           [ intros (e & x & r & H); rewrite Forall_forall in Hw;
             apply Hw in H; discriminate
           | intros (_ & p & e & chg & H & _);
             rewrite Forall_forall in Hw; apply Hw in H; discriminate ]).
    all: cbv beta iota;
      destruct (host_reconcile_sync false fp' s1) as (t2 & Ht2 & H2);
      rewrite Ht2, Ht1;
      destruct (warnings_not_synced t1 t2 Hw) as [Hs Hr];
      rewrite Hs, Hr; exact H2. }
  split; [exact Hiff|].
  intros Habs Hs. apply Hiff in Hs. destruct Hs as [Hs _]. congruence.
Qed.

Lemma prune_In (obj : dict) (k : string) (v : value) :
  In (k, v) (prune obj) <-> In (k, v) obj /\ truthy v = true.
Proof. unfold prune. now rewrite filter_In. Qed.

(** A key given a falsy value and a key not given leave the same
    record. *)
Lemma prune_set_falsy (obj : dict) (k : string) (v : value) :
  truthy v = false -> prune (Dict.set k v obj) = prune (Dict.pop k obj).
Proof.
  intros Hv. unfold prune.
  induction obj as [|[k2 v2] obj IH]; simpl; [now rewrite Hv|].
  destruct (String.eqb k k2); simpl; [now rewrite Hv | now rewrite IH].
Qed.

Lemma dicts_of_app (a b : list value) :
  dicts_of (a ++ b) = (dicts_of a ++ dicts_of b)%list.
Proof.
  induction a as [|x a IH]; simpl; [reflexivity|].
  destruct x; simpl; now rewrite ?IH.
Qed.

Lemma pruned_interfaces_falsy (pre post : list value) (obj : dict)
  (k : string) (v : value) :
  truthy v = false ->
  pruned_interfaces (pre ++ VDict (Dict.set k v obj) :: post)
  = pruned_interfaces (pre ++ VDict (Dict.pop k obj) :: post).
Proof.
  intros Hv. unfold pruned_interfaces.
  rewrite !dicts_of_app. cbn [dicts_of]. rewrite !map_app. cbn [map].
  now rewrite (prune_set_falsy _ _ _ Hv).
Qed.

Lemma pruned_interfaces_truthy (interfaces : list value) (nic : value) :
  In nic (pruned_interfaces interfaces) ->
  exists fields,
    nic = VDict fields /\ fields <> []
    /\ forall k v, In (k, v) fields ->
         truthy v = true
         /\ exists obj, In (VDict obj) interfaces /\ In (k, v) obj.
Proof.
  unfold pruned_interfaces. intros H. apply in_map_iff in H.
  destruct H as (fields & <- & H). apply filter_In in H.
  destruct H as [H Hne]. apply in_map_iff in H.
  destruct H as (obj & <- & Hobj).
  exists (prune obj). split; [reflexivity|].
  split; [now destruct (prune obj)|].
  intros k v Hkv. apply prune_In in Hkv. destruct Hkv as [Hkv Hv].
  split; [exact Hv|]. exists obj. split; [|exact Hkv].
  clear - Hobj. induction interfaces as [|x l IH]; [destruct Hobj|].
  destruct x; simpl in Hobj; try (right; now apply IH).
  destruct Hobj as [-> | Hobj]; [now left | right; now apply IH].
Qed.

Lemma mem_set_other (k k' : string) (v : value) (d : dict) :
  k <> k' -> Dict.mem k (Dict.set k' v d) = Dict.mem k d.
Proof.
  intros H. now rewrite !DictFacts.mem_get, DictFacts.get_set_other.
Qed.

Lemma truthy_at_set_other (k k' : string) (v : value) (d : dict) :
  k <> k' -> truthy_at k (Dict.set k' v d) = truthy_at k d.
Proof. intros H. unfold truthy_at. now rewrite DictFacts.get_set_other. Qed.

Lemma couple_set_interfaces (v : value) (fp : dict) :
  Dict.mem "interfaces_attributes" fp = true ->
  couple_build_managed (Dict.set "interfaces_attributes" v fp)
  = Dict.set "interfaces_attributes" v (couple_build_managed fp).
Proof.
  intros Hmem. unfold couple_build_managed, build_set, managed_cleared.
  rewrite !mem_set_other, !truthy_at_set_other by discriminate.
  destruct (_ && _); [now apply DictFacts.set_comm|].
  destruct (_ && _); [now apply DictFacts.set_comm | reflexivity].
Qed.

Lemma lower_mac_set_interfaces (v : value) (fp : dict) :
  Dict.mem "interfaces_attributes" fp = true ->
  lower_mac (Dict.set "interfaces_attributes" v fp)
  = Dict.set "interfaces_attributes" v (lower_mac fp).
Proof.
  intros Hmem. unfold lower_mac.
  rewrite DictFacts.get_set_other by discriminate.
  destruct (Dict.get "mac" fp) as [[]|]; try reflexivity.
  now apply DictFacts.set_comm.
Qed.

Lemma owner_type_set_interfaces (v : value) (fp : dict) :
  Dict.mem "interfaces_attributes" fp = true ->
  derive_owner_type (Dict.set "interfaces_attributes" v fp)
  = Dict.set "interfaces_attributes" v (derive_owner_type fp).
Proof.
  intros Hmem. unfold derive_owner_type.
  rewrite !mem_set_other by discriminate.
  destruct (Dict.mem "owner" fp); [now apply DictFacts.set_comm|].
  destruct (Dict.mem "owner_group" fp);
    [now apply DictFacts.set_comm | reflexivity].
Qed.

(** The normalised parameters depend on the interfaces only through
    their pruning. *)
Lemma normalized_interfaces (fp : dict) (given other : list value) :
  Dict.get "interfaces_attributes" fp = Some (VList given) ->
  pruned_interfaces other = pruned_interfaces given ->
  normalized (Dict.set "interfaces_attributes" (VList other) fp) = normalized fp
  /\ normalize_warnings (Dict.set "interfaces_attributes" (VList other) fp)
     = normalize_warnings fp.
Proof.
  intros Hget Heq.
  assert (Hmem : Dict.mem "interfaces_attributes" fp = true)
    by (rewrite DictFacts.mem_get, Hget; reflexivity).
  split.
  - unfold normalized.
    assert (H1 : Dict.mem "interfaces_attributes" (couple_build_managed fp)
                 = true)
      by (now rewrite DictFacts.mem_get, get_couple,
            <- DictFacts.mem_get by discriminate).
    assert (H2 : Dict.mem "interfaces_attributes"
                   (lower_mac (couple_build_managed fp)) = true)
      by (now rewrite DictFacts.mem_get, get_lower_mac,
            <- DictFacts.mem_get by discriminate).
    rewrite couple_set_interfaces, lower_mac_set_interfaces,
      owner_type_set_interfaces by assumption.
    set (fp3 := derive_owner_type (lower_mac (couple_build_managed fp))).
    assert (H3 : Dict.get "interfaces_attributes" fp3 = Some (VList given)).
    { subst fp3.
      now rewrite get_derive_owner_type, get_lower_mac, get_couple
        by discriminate. }
    unfold prune_interfaces.
    rewrite DictFacts.get_set_same, H3, DictFacts.set_set.
    now rewrite Heq.
  - unfold normalize_warnings, build_set, managed_cleared.
    now rewrite !mem_set_other, !truthy_at_set_other by discriminate.
Qed.

Lemma typed_set_interfaces (fp : dict) (other : list value) :
  host_spec_typed fp = true ->
  forallb is_dict other = true ->
  host_spec_typed (Dict.set "interfaces_attributes" (VList other) fp) = true.
Proof.
  unfold host_spec_typed. intros Hty Hother.
  rewrite !has_type_set_other by discriminate.
  repeat (apply andb_prop in Hty; destruct Hty as [Hty ?]).
  unfold has_type at 5. rewrite DictFacts.get_set_same. cbn [is_list_of_dict].
  rewrite Hty, H2, H1, H0, Hother. reflexivity.
Qed.

(** C4: in a state other than absent, on parameters of the declared
    types that give [interfaces_attributes]: the normalised parameters,
    which are those the [with] block works on, hold the interface records
    with every key of falsy value taken out (and the records left empty
    dropped); every entry kept is an entry given with a truthy value; and
    giving a key a falsy value in a record or leaving the key out of it
    gives the same normalised parameters and the same warnings. *)
Theorem host_interfaces_pruned (st : entity_state) (fp : dict)
  (name : string) (w : World) (interfaces : list value) :
  is_absent st = false ->
  Dict.get "name" fp = Some (VStr name) ->
  str_contains "." name = true ->
  host_spec_typed fp = true ->
  Dict.get "interfaces_attributes" fp = Some (VList interfaces) ->
  exists fp' warnings,
    host_normalize fp (init w) = (Ret fp', MState w false warnings)
    /\ host_main R (HostModule st fp) (init w)
       = api_connection (host_reconcile R false fp')
           (MState w false warnings)
    /\ Dict.get "interfaces_attributes" fp'
       = Some (VList (map VDict
                        (filter nonempty
                           (map prune (dicts_of interfaces)))))
    /\ (forall obj k v,
          In (k, v) (prune obj) <-> In (k, v) obj /\ truthy v = true)
    /\ (forall nic,
          In nic (map VDict
                    (filter nonempty (map prune (dicts_of interfaces)))) ->
          exists fields,
            nic = VDict fields /\ fields <> []
            /\ forall k v, In (k, v) fields ->
                 truthy v = true
                 /\ exists obj, In (VDict obj) interfaces /\ In (k, v) obj)
    /\ (forall pre post obj k v,
          interfaces = (pre ++ VDict (Dict.set k v obj) :: post)%list ->
          truthy v = false ->
          host_normalize
            (Dict.set "interfaces_attributes"
               (VList (pre ++ VDict (Dict.pop k obj) :: post)) fp) (init w)
          = host_normalize fp (init w)).
Proof.
  intros Habs Hname Hdot Hty Hget.
  destruct (host_main_normalizes st fp name w Habs Hname Hdot Hty)
    as [Hn Hm].
  exists (normalized fp), (normalize_warnings fp).
  split; [exact Hn|]. split; [exact Hm|]. split; [|split; [|split]].
  - unfold normalized, prune_interfaces.
    rewrite get_derive_owner_type, get_lower_mac, get_couple, Hget
      by discriminate.
    apply DictFacts.get_set_same.
  - intros obj k v. apply prune_In.
  - intros nic. apply pruned_interfaces_truthy.
  - intros pre post obj k v Hsplit Hv.
    assert (Hdicts : forallb is_dict
                       (pre ++ VDict (Dict.pop k obj) :: post) = true).
    { unfold host_spec_typed, has_type in Hty. rewrite Hget in Hty.
      repeat (apply andb_prop in Hty; destruct Hty as [Hty ?]).
      cbn [is_list_of_dict] in *. subst interfaces.
      rewrite forallb_app in *. cbn [forallb is_dict] in *. assumption. }
    rewrite Hn, host_normalize_typed
      by (now apply typed_set_interfaces).
    destruct (normalized_interfaces fp interfaces
                (pre ++ VDict (Dict.pop k obj) :: post) Hget) as [-> ->].
    + subst interfaces. symmetry. now apply pruned_interfaces_falsy.
    + reflexivity.
Qed.

End Host.

(** ** The theorems at work, and the inputs that refute two claims *)

Lemma prefix_append (sub b : string) : String.prefix sub (sub ++ b) = true.
Proof.
  induction sub as [|c sub IH]; simpl; [now destruct b|].
  destruct (ascii_dec c c); [exact IH | congruence].
Qed.

Lemma str_contains_prefix (sub s : string) :
  String.prefix sub s = true -> str_contains sub s = true.
Proof. intros H. destruct s; cbn [str_contains]; now rewrite H. Qed.

Lemma occurs_in_contains (sub s : string) :
  occurs_in sub s -> str_contains sub s = true.
Proof.
  intros (a & b & ->). induction a as [|c a IH].
  - cbn [append]. apply str_contains_prefix, prefix_append.
  - cbn [append str_contains]. rewrite IH.
    now destruct (String.prefix sub (String c (a ++ sub ++ b))).
Qed.

(** C1 as stated fails: deleting all media with a [path] and a truthy
    [updated_name] ends with the message about [updated_name], which does
    not name [path]. *)
Lemma medium_wildcard_absent_message_counterexample :
  let module := medium_delete_all_renamed in
  let result := medium_main (stub_remote [] None [] None) module (init tt) in
  Dict.get "name" (m_foreman_params module) = Some (VStr "*")
  /\ m_state module = Absent
  /\ In "path" (Dict.keys (m_foreman_params module))
  /\ exists msg, fst result = FailJson msg /\ ~ occurs_in "path" msg.
Proof.
  cbn. repeat split; auto.
  exists msg_updated_name. split; [reflexivity|].
  intros H. apply occurs_in_contains in H. vm_compute in H. discriminate.
Qed.

Lemma medium_wildcard_absent_rejects_parameters_witness :
  let result :=
    medium_main (stub_remote [] None [] None) medium_delete_all_with_path
      (init tt) in
  fst result
  = FailJson "When deleting all installation media, there is no need to specify further parameters: dict_keys(['path']) "
  /\ remote_calls (trace (snd result)) = [].
Proof.
  destruct (medium_wildcard_absent_rejects_parameters
              (stub_remote [] None [] None) medium_delete_all_with_path tt
              VNone "path")
    as (_ & _ & Hcalls & Hmsg);
    [reflexivity | reflexivity | reflexivity | simpl; auto
    | discriminate | discriminate |].
  split; [exact (proj1 (Hmsg eq_refl)) | exact Hcalls].
Defined.

Lemma medium_wildcard_rejects_defaults_and_rename_witness :
  fst (medium_main (stub_remote [] None [] None) medium_seed_all (init tt))
  = FailJson msg_with_defaults.
Proof.
  apply (medium_wildcard_rejects_defaults_and_rename
           (stub_remote [] None [] None) medium_seed_all tt);
    [reflexivity | left; reflexivity].
Defined.

Lemma medium_wildcard_empty_listing_exits_witness :
  let result :=
    medium_main (stub_remote [] None [] None) medium_update_all (init tt) in
  fst result = ExitJson false
  /\ remote_calls (trace (snd result)) = [EListResource "media" (inr [])].
Proof.
  apply (medium_wildcard_empty_listing_exits
           (stub_remote [] None [] None) medium_update_all tt);
    [reflexivity | simpl; auto].
Defined.

Lemma medium_os_family_derived_iff_new_witness :
  trace (snd (medium_main (stub_remote [] None debian None) medium_wheezy
                (init tt)))
  = [EApiConnect;
     EFindResourceByName "media" (VStr "wheezy") (inr None);
     EResolveEntities wheezy_params None (inr (None, wheezy_params));
     EShowResource "operatingsystems" (VInt 3) (inr debian);
     EEnsureEntity "media"
       (Dict.set "os_family" (VStr "Debian") wheezy_params) None (inr true);
     EApiRelease]
  /\ trace (snd (medium_main (stub_remote [] (Some wheezy_remote) debian None)
                   medium_wheezy (init tt)))
     = [EApiConnect;
        EFindResourceByName "media" (VStr "wheezy") (inr (Some wheezy_remote));
        EResolveEntities wheezy_params (Some wheezy_remote)
          (inr (Some wheezy_remote, wheezy_params));
        EEnsureEntity "media" wheezy_params (Some wheezy_remote) (inr true);
        EApiRelease].
Proof.
  split.
  - destruct (medium_os_family_derived_iff_new
                (stub_remote [] None debian None) medium_wheezy tt tt tt
                (VStr "wheezy") None None wheezy_params
                (VDict [("id", VInt 3)])
                eq_refl eq_refl eq_refl eq_refl eq_refl eq_refl eq_refl)
      as (Hnew & _ & _).
    exact (proj2 (Hnew eq_refl [("id", VInt 3)] debian (VInt 3)
                    (VStr "Debian") tt eq_refl eq_refl eq_refl eq_refl)).
  - destruct (medium_os_family_derived_iff_new
                (stub_remote [] (Some wheezy_remote) debian None)
                medium_wheezy tt tt tt (VStr "wheezy") (Some wheezy_remote)
                (Some wheezy_remote) wheezy_params (VDict [("id", VInt 3)])
                eq_refl eq_refl eq_refl eq_refl eq_refl eq_refl eq_refl)
      as (_ & Hold & _).
    exact (Hold wheezy_remote eq_refl).
Defined.

Lemma host_name_must_be_fqdn_witness :
  host_main (stub_remote [] None [] None)
    (HostModule Absent [("name", VStr "localhost")]) (init tt)
  = (FailJson "The hostname must be FQDN", init tt).
Proof.
  apply (host_name_must_be_fqdn (stub_remote [] None [] None) Absent
           [("name", VStr "localhost")] "localhost" tt eq_refl).
  simpl. intros H.
  repeat (destruct H as [H | H]; [discriminate|]). exact H.
Defined.

Lemma host_build_forces_managed_witness :
  exists fp' warnings,
    host_normalize host_params (init tt) = (Ret fp', MState tt false warnings)
    /\ Dict.get "managed" fp' = Some (VBool true)
    /\ warnings = [EWarn msg_build_managed].
Proof.
  destruct (host_build_forces_managed (stub_remote [] None [] None) Present
              host_params "new.example.com" tt
              eq_refl eq_refl eq_refl eq_refl)
    as (fp' & warnings & Hn & _ & Hb & _).
  exists fp', warnings. destruct (Hb eq_refl) as [Hm Hw].
  split; [exact Hn|]. split; [exact Hm | exact Hw].
Defined.

Lemma host_interfaces_pruned_witness :
  exists fp' warnings,
    host_normalize host_params (init tt) = (Ret fp', MState tt false warnings)
    /\ Dict.get "interfaces_attributes" fp'
       = Some (VList [VDict [("mac", VStr "aa:bb")]]).
Proof.
  destruct (host_interfaces_pruned (stub_remote [] None [] None) Present
              host_params "new.example.com" tt
              [VDict [("ip", VStr ""); ("mac", VStr "aa:bb")];
               VDict [("ip", VNone); ("managed", VBool false)]]
              eq_refl eq_refl eq_refl eq_refl eq_refl)
    as (fp' & warnings & Hn & _ & Hi & _).
  exists fp', warnings. split; [exact Hn | exact Hi].
Defined.

Lemma host_owner_exclusive_and_typed_witness :
  host_invocation (stub_remote [] None [] None) Present
    (host_params ++ [("owner_group", VStr "admins")])%list (init tt)
  = (FailJson "parameters are mutually exclusive: owner|owner_group", init tt)
  /\ exists fp' warnings,
       host_normalize host_params (init tt)
       = (Ret fp', MState tt false warnings)
       /\ Dict.get "owner_type" fp' = Some (VStr "User").
Proof.
  split.
  - exact (proj1 (host_owner_exclusive_and_typed
                    (stub_remote [] None [] None) Present
                    (host_params ++ [("owner_group", VStr "admins")])%list tt)
                 eq_refl eq_refl).
  - destruct (proj2 (host_owner_exclusive_and_typed
                       (stub_remote [] None [] None) Present host_params tt)
                    "new.example.com" eq_refl eq_refl eq_refl eq_refl)
      as (fp' & warnings & Hn & _ & Ho); [discriminate|].
    exists fp', warnings. split; [exact Hn | exact Ho].
Defined.

Lemma host_puppetclasses_sync_iff_witness :
  synced_puppetclasses
    (trace (snd (host_main (stub_remote [] None [] (Some host_entity))
                   (HostModule Present host_params) (init tt)))).
Proof.
  apply (proj1 (host_puppetclasses_sync_iff
                  (stub_remote [] None [] (Some host_entity)) Present
                  host_params tt)).
  split; [reflexivity|].
  eexists _, host_entity, true. split; [|reflexivity].
  simpl. right. right. right. left. reflexivity.
Defined.

(** C10 as stated fails: a host to delete that names its puppet classes
    reaches [run] without them. *)
Lemma host_absent_parameters_counterexample :
  let result :=
    host_main (stub_remote [] None [] None)
      (HostModule Absent host_with_classes) (init tt) in
  trace (snd result)
  = [EApiConnect;
     ERun [("name", VStr "old.example.com")] (inr (None, true));
     EApiRelease]
  /\ ~ exists r, In (ERun host_with_classes r) (trace (snd result)).
Proof.
  split; [reflexivity|].
  intros (r & H). simpl in H.
  repeat (destruct H as [H | H]; try discriminate). exact H.
Qed.

Lemma host_absent_skips_normalization_witness :
  trace (snd (host_main (stub_remote [] None [] None)
                (HostModule Absent host_params) (init tt)))
  = [EApiConnect; ERun host_params (inr (None, true)); EApiRelease].
Proof.
  exact (proj1 (host_absent_skips_normalization
                  (stub_remote [] None [] None) host_params
                  "new.example.com" tt eq_refl eq_refl)).
Defined.

(** * Further properties of the three modules *)

(** ** The discipline every computation of the modules keeps *)

Section Discipline.

Context {World : Type}.
Variable P : event -> Prop.
Variable E : Prop.

Lemma disciplined_pure {A} (m : M World A) :
  (forall s, snd (m s) = s) ->
  (forall s c, fst (m s) = ExitJson c -> E /\ c = changed s) ->
  disciplined P E m.
Proof.
  intros Hs Hc s. exists []. rewrite Hs, app_nil_r. cbn [existsb].
  rewrite orb_false_r.
  split; [reflexivity|]. split; [constructor|]. split; [reflexivity|].
  split; [intros c H; now apply Hc | left; constructor].
Qed.

Lemma disciplined_ext {A} (m m' : M World A) :
  (forall s, m s = m' s) -> disciplined P E m' -> disciplined P E m.
Proof. intros Heq Hm s. rewrite Heq. apply Hm. Qed.

Lemma disciplined_ret {A} (a : A) : disciplined (World:=World) P E (ret a).
Proof. apply disciplined_pure; [reflexivity | discriminate]. Qed.

Lemma disciplined_fail_json {A} (msg : string) :
  disciplined (World:=World) P E (fail_json (A:=A) msg).
Proof. apply disciplined_pure; [reflexivity | discriminate]. Qed.

Lemma disciplined_raise {A} (exn : string) :
  disciplined (World:=World) P E (raise (A:=A) exn).
Proof. apply disciplined_pure; [reflexivity | discriminate]. Qed.

Lemma disciplined_exit_json {A} :
  E -> disciplined (World:=World) P E (exit_json (A:=A)).
Proof.
  intros HE. apply disciplined_pure; [reflexivity|].
  intros s c H. split; [exact HE | now injection H].
Qed.

Lemma disciplined_getitem (d : dict) (k : string) :
  disciplined (World:=World) P E (getitem d k).
Proof.
  unfold getitem.
  destruct (Dict.get k d); [apply disciplined_ret | apply disciplined_raise].
Qed.

Lemma disciplined_bind {A B} (m : M World A) (f : A -> M World B) :
  disciplined P E m -> (forall a, disciplined P E (f a)) ->
  disciplined P E (bind m f).
Proof.
  intros Hm Hf s. unfold bind.
  destruct (Hm s) as (t1 & Ht1 & HP1 & Hc1 & He1 & Hf1).
  destruct (m s) as [[a | msg | c | exn] s1]; cbn [fst snd] in *.
  - destruct (Hf a s1) as (t2 & Ht2 & HP2 & Hc2 & He2 & Hf2).
    exists (t1 ++ t2)%list.
    rewrite Ht2, Ht1, Hc2, Hc1, app_assoc, existsb_app, orb_assoc.
    split; [reflexivity|]. split; [now apply Forall_app|].
    split; [reflexivity|]. split.
    { intros c H. destruct (He2 c H) as [HE ->]. split; [exact HE|].
      now rewrite Hc2, Hc1. }
    destruct Hf1 as [Hok1 | (t0 & e & msg & _ & _ & _ & H)]; [|discriminate].
    destruct Hf2 as [Hok2 | (t0 & e & msg & -> & Hok0 & He & Hr)].
    + left. now apply Forall_app.
    + right. exists (t1 ++ t0)%list, e, msg. rewrite app_assoc.
      repeat split; auto. now apply Forall_app.
  - exists t1. split; [exact Ht1|]. split; [exact HP1|].
    split; [exact Hc1|]. split; [discriminate|].
    destruct Hf1 as [Hok | (t0 & e & m' & -> & Hok & He & Hr)];
      [now left|].
    right. exists t0, e, m'. injection Hr as ->. repeat split; auto.
  - exists t1. split; [exact Ht1|]. split; [exact HP1|].
    split; [exact Hc1|].
    split; [intros c' H; injection H as <-; now apply He1|].
    destruct Hf1 as [Hok | (t0 & e & m' & _ & _ & _ & Hr)];
      [now left | discriminate].
  - exists t1. split; [exact Ht1|]. split; [exact HP1|].
    split; [exact Hc1|]. split; [discriminate|].
    destruct Hf1 as [Hok | (t0 & e & m' & _ & _ & _ & Hr)];
      [now left | discriminate].
Qed.

Lemma disciplined_event {A} (m : M World A) (ev : event) :
  P ev ->
  (forall s, trace (snd (m s)) = (trace s ++ [ev])%list) ->
  (forall s, changed (snd (m s)) = (changed s || reports_change ev)%bool) ->
  (forall s c, fst (m s) <> ExitJson c) ->
  (forall s, event_failure ev = None
             \/ exists msg, event_failure ev = Some msg
                            /\ fst (m s) = FailJson msg) ->
  disciplined P E m.
Proof.
  intros HP Ht Hc He Hf s. exists [ev]. cbn [existsb]. rewrite orb_false_r.
  split; [apply Ht|]. split; [now constructor|]. split; [apply Hc|].
  split; [intros c H; now elim (He s c)|].
  destruct (Hf s) as [Hok | (msg & Hm & Hr)].
  - left. now constructor.
  - right. exists [], ev, msg. repeat split; auto using Forall_nil.
Qed.

(** A helper call that only reads. *)
Lemma disciplined_call {A} (f : World -> reply A * World)
  (ev : reply A -> event) :
  (forall r, P (ev r)) ->
  (forall r, reports_change (ev r) = false) ->
  (forall msg, event_failure (ev (inl msg)) = Some msg) ->
  (forall a, event_failure (ev (inr a)) = None) ->
  disciplined P E (call f ev).
Proof.
  intros HP Hc Hl Hr s. unfold call.
  destruct (f (world s)) as [[msg | a] w]; cbn [fst snd trace changed].
  - exists [ev (inl msg)]. cbn [existsb]. rewrite Hc, !orb_false_r.
    split; [reflexivity|]. split; [constructor; [apply HP | constructor]|].
    split; [reflexivity|]. split; [discriminate|].
    right. exists [], (ev (inl msg)), msg. repeat split; auto using Forall_nil.
  - exists [ev (inr a)]. cbn [existsb]. rewrite Hc, !orb_false_r.
    split; [reflexivity|]. split; [constructor; [apply HP | constructor]|].
    split; [reflexivity|]. split; [discriminate|].
    left. constructor; [apply Hr | constructor].
Qed.

(** A helper call that reports whether it changed something. *)
Lemma disciplined_call_changing (f : World -> reply bool * World)
  (ev : reply bool -> event) :
  (forall r, P (ev r)) ->
  (forall c, reports_change (ev (inr c)) = c) ->
  (forall msg, reports_change (ev (inl msg)) = false) ->
  (forall msg, event_failure (ev (inl msg)) = Some msg) ->
  (forall c, event_failure (ev (inr c)) = None) ->
  disciplined P E (call_changing f ev).
Proof.
  intros HP Hc Hn Hl Hr s. unfold call_changing.
  destruct (f (world s)) as [[msg | c] w]; cbn [fst snd trace changed].
  - exists [ev (inl msg)]. cbn [existsb]. rewrite Hn, !orb_false_r.
    split; [reflexivity|]. split; [constructor; [apply HP | constructor]|].
    split; [reflexivity|]. split; [discriminate|].
    right. exists [], (ev (inl msg)), msg. repeat split; auto using Forall_nil.
  - exists [ev (inr c)]. cbn [existsb]. rewrite Hc, orb_false_r.
    split; [reflexivity|]. split; [constructor; [apply HP | constructor]|].
    split; [reflexivity|]. split; [discriminate|].
    left. constructor; [apply Hr | constructor].
Qed.

Lemma disciplined_warn (msg : string) :
  P (EWarn msg) -> disciplined (World:=World) P E (warn msg).
Proof.
  intros HP s. exists [EWarn msg]. cbn. rewrite orb_false_r.
  split; [reflexivity|]. split; [constructor; [exact HP | constructor]|].
  split; [reflexivity|]. split; [discriminate|].
  left. constructor; [reflexivity | constructor].
Qed.

Lemma disciplined_mapM {A B} (f : A -> M World B) (l : list A) :
  (forall a, disciplined P E (f a)) -> disciplined P E (mapM f l).
Proof.
  intros Hf. induction l as [|x l IH]; simpl; [apply disciplined_ret|].
  apply disciplined_bind; [apply Hf|]. intros y.
  apply disciplined_bind; [exact IH|]. intros ys. apply disciplined_ret.
Qed.

Lemma disciplined_forM_ {A} (l : list A) (f : A -> M World unit) :
  (forall a, disciplined P E (f a)) -> disciplined P E (forM_ l f).
Proof.
  intros Hf. induction l as [|x l IH]; simpl; [apply disciplined_ret|].
  apply disciplined_bind; [apply Hf | intros _; exact IH].
Qed.

(** [run] and the recording of the change it reports, taken together. *)
Lemma disciplined_run {B} (R : remote World) (params : dict)
  (k : option dict -> M World B) :
  (forall r, P (ERun params r)) ->
  (forall entity, disciplined P E (k entity)) ->
  disciplined P E
    (bind (call (run R params) (ERun params))
          (fun '(entity, chg) => bind (set_changed chg) (fun _ => k entity))).
Proof.
  intros HP Hk s.
  match goal with |- context [snd (?m s)] => set (body := m) end.
  assert (Eb : body s
              = match run R params (world s) with
                | (inl msg, w) =>
                    (FailJson msg,
                     MState w (changed s)
                       (trace s ++ [ERun params (inl msg)]))
                | (inr (entity, chg), w) =>
                    k entity
                      (MState w (changed s || chg)
                         (trace s ++ [ERun params (inr (entity, chg))]))
                end).
  { subst body. unfold bind, call, set_changed.
    now destruct (run R params (world s)) as [[msg | [entity chg]] w]. }
  rewrite Eb. clear Eb body.
  destruct (run R params (world s)) as [[msg | [entity chg]] w];
    cbn [fst snd trace changed].
  - exists [ERun params (inl msg)]. cbn. rewrite orb_false_r.
    split; [reflexivity|]. split; [constructor; [apply HP | constructor]|].
    split; [reflexivity|]. split; [discriminate|].
    right. exists [], (ERun params (inl msg)), msg.
    repeat split; auto using Forall_nil.
  - set (s1 := MState w (changed s || chg)
                 (trace s ++ [ERun params (inr (entity, chg))])).
    destruct (Hk entity s1) as (t & Ht & HPt & Hc & He & Hf).
    exists (ERun params (inr (entity, chg)) :: t).
    rewrite Ht, Hc. subst s1. cbn [trace changed existsb reports_change].
    rewrite <- app_assoc, orb_assoc.
    split; [reflexivity|]. split; [constructor; [apply HP | exact HPt]|].
    split; [reflexivity|]. split.
    { intros c H. destruct (He c H) as [HE ->]. split; [exact HE|].
      now rewrite Hc. }
    destruct Hf as [Hok | (t0 & e & msg & -> & Hok & Hm & Hr)].
    + left. constructor; [reflexivity | exact Hok].
    + right. exists (ERun params (inr (entity, chg)) :: t0), e, msg.
      repeat split; auto. constructor; [reflexivity | exact Hok].
Qed.

End Discipline.

Ltac disciplined_step :=
  first
    [ apply disciplined_ret | apply disciplined_fail_json
    | apply disciplined_exit_json; exact I | apply disciplined_raise
    | apply disciplined_getitem
    | apply disciplined_call; intros; reflexivity
    | apply disciplined_call_changing; intros; reflexivity
    | apply disciplined_warn; reflexivity
    | apply disciplined_mapM; intros
    | apply disciplined_forM_; intros
    | apply disciplined_run; [intros; reflexivity | intros]
    | apply disciplined_bind; [|intros]
    | match goal with
      | |- disciplined _ _ (if ?b then _ else _) => destruct b
      | |- disciplined _ _ (match ?x with _ => _ end) => destruct x
      | |- disciplined _ _ (let (_, _) := ?x in _) => destruct x
      end ].

Ltac disciplined_tac := repeat disciplined_step.


(** ** Every run of the installation medium module *)

Section MediumRuns.

Context {World : Type} (R : remote World).

Lemma medium_check_wildcard_disciplined (module : medium_module) :
  disciplined (World:=World) medium_call True (medium_check_wildcard module).
Proof. unfold medium_check_wildcard. disciplined_tac. Qed.

Lemma medium_lookup_disciplined (module : medium_module) (am : bool) :
  disciplined medium_call True (medium_lookup R module am).
Proof. unfold medium_lookup. disciplined_tac. Qed.

Lemma medium_resolve_disciplined (module : medium_module) (am : bool)
  (entity : option dict) :
  disciplined medium_call True (medium_resolve R module am entity).
Proof.
  unfold medium_resolve, medium_derives, subscript, first, len.
  disciplined_tac.
Qed.

Lemma medium_ensure_disciplined (am : bool) (params : dict)
  (entities : list dict) (entity : option dict) :
  disciplined medium_call True (medium_ensure R am params entities entity).
Proof. unfold medium_ensure. disciplined_tac. Qed.

(** The shape of every run of [main]. *)
Lemma medium_main_run (module : medium_module) (w : World) :
  let result := medium_main R module (init w) in
  exists t,
    trace (snd result) = EApiConnect :: (t ++ [EApiRelease])%list
    /\ Forall medium_call t
    /\ changed (snd result) = existsb reports_change t
    /\ (forall c, fst result = ExitJson c -> c = changed (snd result))
    /\ (Forall succeeded t
        \/ exists t0 e msg,
             t = (t0 ++ [e])%list /\ Forall succeeded t0
             /\ event_failure e = Some msg /\ fst result = FailJson msg).
Proof.
  intros result. subst result. unfold medium_main, api_connection.
  match goal with
  | |- context [let (_, _) := ?b _ in _] => set (body := b)
  end.
  assert (Hb : disciplined medium_call True body).
  { subst body. apply disciplined_bind; [apply disciplined_getitem|].
    intros name.
    apply disciplined_bind.
    { destruct (eq_str name "*");
        [apply medium_check_wildcard_disciplined | apply disciplined_ret]. }
    intros _. apply disciplined_bind; [apply medium_lookup_disciplined|].
    intros [entities entity].
    apply disciplined_bind; [apply medium_resolve_disciplined|].
    intros params. apply medium_ensure_disciplined. }
  destruct (Hb (log EApiConnect (init w))) as (t & Ht & HP & Hc & He & Hf).
  clearbody body. destruct (body (log EApiConnect (init w))) as [r s1].
  cbn [fst snd log trace changed init app orb] in *.
  exists t. rewrite Ht. repeat split; auto.
  intros c H. now apply He.
Qed.



(** X3: The module reports a change exactly when some reconciliation of a
    medium reported one, also when it exits early. *)
Theorem medium_changed_iff_reported (module : medium_module) (w : World) :
  let result := medium_main R module (init w) in
  (changed (snd result) = true
   <-> exists params entity,
         In (EEnsureEntity "media" params entity (inr true))
            (trace (snd result)))
  /\ (forall c, fst result = ExitJson c -> c = changed (snd result)).
Proof.
  intros result.
  destruct (medium_main_run module w) as (t & Ht & HP & Hc & He & _).
  fold result in Ht, Hc, He. split; [|exact He].
  rewrite Hc, Ht, existsb_exists. rewrite Forall_forall in HP. split.
  - intros (e & Hin & Hrc). specialize (HP e Hin).
    destruct e as [| | | | | | |res params entity [|[]]| | |];
      try discriminate.
    apply String.eqb_eq in HP. subst res.
    exists params, entity. right. apply in_or_app. now left.
  - intros (params & entity & [H | H]); [discriminate|].
    apply in_app_or in H. destruct H as [H | [H | []]]; [|discriminate].
    now exists (EEnsureEntity "media" params entity (inr true)).
Qed.

End MediumRuns.

(** ** Every run of the host module *)

Section HostRuns.

Context {World : Type} (R : remote World).

Lemma host_normalize_disciplined (fp : dict) :
  disciplined (World:=World) only_warnings False (host_normalize fp).
Proof.
  unfold host_normalize, filter_interfaces, iter. disciplined_tac.
Qed.

Lemma host_reconcile_disciplined (desired_absent : bool) (fp : dict) :
  disciplined host_call False (host_reconcile R desired_absent fp).
Proof. unfold host_reconcile. disciplined_tac. Qed.

Lemma warnings_report_nothing (ws : list event) :
  Forall only_warnings ws -> existsb reports_change ws = false.
Proof.
  induction 1 as [|e ws He _ IH]; [reflexivity|].
  destruct e; try discriminate. exact IH.
Qed.

(** A step that only warns, before the connection. *)
Lemma guarded_bind {A B} (m : M World A) (k : A -> M World B) :
  disciplined only_warnings False m -> (forall a, guarded (k a)) ->
  guarded (bind m k).
Proof.
  intros Hm Hk s. unfold bind.
  destruct (Hm s) as (ws1 & Ht1 & HP1 & Hc1 & He1 & _).
  rewrite (warnings_report_nothing ws1 HP1), orb_false_r in Hc1.
  destruct (m s) as [[a | msg | c | exn] s1]; cbn [fst snd] in *.
  - destruct (Hk a s1) as (ws2 & HP2 & Hcase). exists (ws1 ++ ws2)%list.
    split; [now apply Forall_app|]. rewrite Ht1, Hc1 in Hcase.
    destruct Hcase as [(Ht & Hc & Hr) | (t & Ht & Hrest)].
    + left. rewrite Ht, app_assoc. auto.
    + right. exists t. rewrite Ht, <- !app_assoc. auto.
  - exists ws1. split; [exact HP1|]. left. eauto.
  - destruct (He1 c eq_refl) as [[] _].
  - exists ws1. split; [exact HP1|]. left. eauto.
Qed.

(** The work inside the connection. *)
Lemma guarded_api_connection {A} (body : M World A) :
  disciplined host_call False body -> guarded (api_connection body).
Proof.
  intros Hb s. unfold api_connection. exists []. split; [constructor|].
  right. destruct (Hb (log EApiConnect s)) as (t & Ht & HP & Hc & He & Hf).
  destruct (body (log EApiConnect s)) as [r s1].
  cbn [fst snd log trace changed app] in *. exists t.
  rewrite Ht, <- !app_assoc.
  split; [reflexivity|]. split; [exact HP|]. split; [exact Hc|].
  split; [|exact Hf]. intros c H. now destruct (He c H).
Qed.

Lemma host_main_guarded (module : host_module) :
  guarded (host_main R module).
Proof.
  unfold host_main.
  apply guarded_bind; [apply disciplined_getitem|]. intros name.
  apply guarded_bind; [unfold contains; disciplined_tac|]. intros fqdn.
  apply guarded_bind; [disciplined_tac|]. intros _.
  apply guarded_bind.
  { destruct (negb _);
      [apply host_normalize_disciplined | apply disciplined_ret]. }
  intros fp. apply guarded_api_connection, host_reconcile_disciplined.
Qed.



(** X11: The host module reports a change exactly when [run] or the
    synchronisation of the puppet classes reported one. *)
Theorem host_changed_iff_reported (module : host_module) (w : World) :
  let result := host_main R module (init w) in
  changed (snd result) = true
  <-> (exists params entity,
         In (ERun params (inr (entity, true))) (trace (snd result)))
      \/ (exists entity expected,
            In (EEnsurePuppetclasses "host" entity expected (inr true))
               (trace (snd result))).
Proof.
  intros result.
  destruct (host_main_guarded module (init w)) as (ws & HP & Hcase).
  fold result in Hcase. cbn [init trace changed app orb] in Hcase.
  assert (Hws : forall x, In x ws -> is_warning x = true)
    by (now apply Forall_forall).
  destruct Hcase as [(Ht & Hc & _) | (t & Ht & Hcall & Hc & _)];
    rewrite Ht, Hc.
  - split; [discriminate|].
    intros [(p & x & H) | (x & y & H)]; apply Hws in H; discriminate.
  - rewrite existsb_exists. rewrite Forall_forall in Hcall. split.
    + intros (e & Hin & Hrc). specialize (Hcall e Hin).
      assert (Hin' : In e (ws ++ EApiConnect :: t ++ [EApiRelease])).
      { apply in_or_app. right. right. apply in_or_app. now left. }
      destruct e as [| | | | | | | | |p [|[x []]]|res x y [|[]]];
        try discriminate.
      * left. now exists p, x.
      * apply String.eqb_eq in Hcall. subst res. right. now exists x, y.
    + intros [(p & x & H) | (x & y & H)].
      * exists (ERun p (inr (x, true))). split; [|reflexivity].
        apply in_app_or in H.
        destruct H as [H | [H | H]];
          [apply Hws in H; discriminate | discriminate |].
        apply in_app_or in H. destruct H as [H | [H | []]];
          [exact H | discriminate].
      * exists (EEnsurePuppetclasses "host" x y (inr true)).
        split; [|reflexivity]. apply in_app_or in H.
        destruct H as [H | [H | H]];
          [apply Hws in H; discriminate | discriminate |].
        apply in_app_or in H. destruct H as [H | [H | []]];
          [exact H | discriminate].
Qed.


End HostRuns.

(** ** The normalisation of the host parameters *)

Section HostNormalisation.

Context {World : Type}.

Lemma lower_ascii_spec (c : ascii) :
  let n := nat_of_ascii c in
  (65 <= n <= 90 -> nat_of_ascii (lower_ascii c) = n + 32)
  /\ (~ 65 <= n <= 90 -> lower_ascii c = c).
Proof.
  intros n. unfold lower_ascii. fold n.
  destruct (Nat.leb_spec 65 n) as [H1 | H1];
    destruct (Nat.leb_spec n 90) as [H2 | H2];
    cbn [andb]; split; intros H;
    try reflexivity; try lia; try (exfalso; lia).
  apply nat_ascii_embedding. lia.
Qed.

Lemma lower_ascii_not_upper (c : ascii) :
  ~ 65 <= nat_of_ascii (lower_ascii c) <= 90.
Proof.
  destruct (lower_ascii_spec c) as [Hup Hno]. cbv zeta in *.
  destruct (Nat.leb 65 (nat_of_ascii c) && Nat.leb (nat_of_ascii c) 90)%bool
    eqn:E.
  - apply andb_prop in E. destruct E as [E1 E2].
    apply Nat.leb_le in E1, E2. rewrite Hup; lia.
  - assert (Hn : ~ 65 <= nat_of_ascii c <= 90).
    { intros [H1 H2]. apply Nat.leb_le in H1, H2.
      rewrite H1, H2 in E. discriminate. }
    now rewrite (Hno Hn).
Qed.

Lemma lower_idempotent (s : string) : lower (lower s) = lower s.
Proof.
  induction s as [|c s IH]; simpl; [reflexivity|]. rewrite IH. f_equal.
  apply (proj2 (lower_ascii_spec (lower_ascii c))).
  apply lower_ascii_not_upper.
Qed.





Lemma set_same_get (k : string) (v : value) (d : dict) :
  Dict.get k d = Some v -> Dict.set k v d = d.
Proof.
  induction d as [|[k' v'] d IH]; simpl; [discriminate|].
  destruct (String.eqb k k') eqn:E.
  - intros H. injection H as ->. reflexivity.
  - intros H. now rewrite IH.
Qed.

Lemma mem_set_keeps (k k' : string) (v : value) (d : dict) :
  Dict.mem k d = true -> Dict.mem k (Dict.set k' v d) = true.
Proof.
  induction d as [|[k2 v2] d IH]; simpl; [discriminate|].
  destruct (String.eqb k' k2) eqn:E'; simpl;
    destruct (String.eqb k k2); auto.
Qed.

Lemma get_normalized_managed (fp : dict) :
  Dict.get "managed" (normalized fp)
  = if build_set fp then Some (VBool true) else Dict.get "managed" fp.
Proof.
  unfold normalized.
  rewrite get_prune_interfaces, get_derive_owner_type, get_lower_mac
    by discriminate.
  unfold couple_build_managed.
  destruct (build_set fp); [apply DictFacts.get_set_same|].
  destruct (_ && _); [now apply DictFacts.get_set_other | reflexivity].
Qed.

Lemma get_normalized_build (fp : dict) :
  Dict.get "build" (normalized fp)
  = if build_set fp then Dict.get "build" fp
    else if negb (Dict.mem "build" fp) && managed_cleared fp
         then Some (VBool false)
         else Dict.get "build" fp.
Proof.
  unfold normalized.
  rewrite get_prune_interfaces, get_derive_owner_type, get_lower_mac
    by discriminate.
  unfold couple_build_managed.
  destruct (build_set fp); [now apply DictFacts.get_set_other|].
  destruct (_ && _); [apply DictFacts.get_set_same | reflexivity].
Qed.

Lemma get_normalized_mac (fp : dict) :
  Dict.get "mac" (normalized fp)
  = match Dict.get "mac" fp with
    | Some (VStr mac) => Some (VStr (lower mac))
    | other => other
    end.
Proof.
  unfold normalized.
  rewrite get_prune_interfaces, get_derive_owner_type by discriminate.
  unfold lower_mac. rewrite get_couple by discriminate.
  destruct (Dict.get "mac" fp) as [[]|] eqn:E;
    rewrite ?get_couple, ?E by discriminate; try reflexivity.
  apply DictFacts.get_set_same.
Qed.

Lemma mem_normalized (k : string) (fp : dict) :
  k <> "managed" -> k <> "build" -> k <> "mac" -> k <> "owner_type" ->
  k <> "interfaces_attributes" ->
  Dict.get k (normalized fp) = Dict.get k fp.
Proof.
  intros. unfold normalized.
  now rewrite get_prune_interfaces, get_derive_owner_type, get_lower_mac,
    get_couple.
Qed.

Lemma get_normalized_owner_type (fp : dict) :
  Dict.get "owner_type" (normalized fp)
  = if Dict.mem "owner" fp then Some (VStr "User")
    else if Dict.mem "owner_group" fp then Some (VStr "Usergroup")
         else Dict.get "owner_type" fp.
Proof.
  unfold normalized. rewrite get_prune_interfaces by discriminate.
  unfold derive_owner_type. rewrite !mem_normalized_stage by discriminate.
  destruct (Dict.mem "owner" fp); [apply DictFacts.get_set_same|].
  destruct (Dict.mem "owner_group" fp); [apply DictFacts.get_set_same|].
  now rewrite get_lower_mac, get_couple by discriminate.
Qed.

Lemma get_normalized_interfaces (fp : dict) :
  Dict.get "interfaces_attributes" (normalized fp)
  = match Dict.get "interfaces_attributes" fp with
    | Some (VList l) => Some (VList (pruned_interfaces l))
    | other => other
    end.
Proof.
  unfold normalized, prune_interfaces.
  set (fp3 := derive_owner_type (lower_mac (couple_build_managed fp))).
  assert (H3 : Dict.get "interfaces_attributes" fp3
               = Dict.get "interfaces_attributes" fp).
  { subst fp3.
    now rewrite get_derive_owner_type, get_lower_mac, get_couple
      by discriminate. }
  rewrite H3.
  destruct (Dict.get "interfaces_attributes" fp) as [[]|] eqn:E;
    rewrite ?H3; try reflexivity.
  apply DictFacts.get_set_same.
Qed.

Lemma dicts_of_map_VDict (l : list dict) : dicts_of (map VDict l) = l.
Proof. induction l as [|d l IH]; simpl; [reflexivity | now rewrite IH]. Qed.

Lemma prune_idempotent (d : dict) : prune (prune d) = prune d.
Proof.
  unfold prune. induction d as [|[k v] d IH]; simpl; [reflexivity|].
  destruct (truthy v) eqn:E; simpl; [now rewrite E, IH | exact IH].
Qed.

Lemma pruned_interfaces_idempotent (l : list value) :
  pruned_interfaces (pruned_interfaces l) = pruned_interfaces l.
Proof.
  unfold pruned_interfaces. rewrite dicts_of_map_VDict. f_equal.
  induction (dicts_of l) as [|d ds IH]; simpl; [reflexivity|].
  destruct (nonempty (prune d)) eqn:E; simpl; [|exact IH].
  now rewrite prune_idempotent, E, IH.
Qed.

Lemma forallb_is_dict_pruned (l : list value) :
  forallb is_dict (pruned_interfaces l) = true.
Proof.
  unfold pruned_interfaces.
  induction (filter nonempty (map prune (dicts_of l))) as [|d ds IH];
    simpl; [reflexivity | exact IH].
Qed.

Lemma build_set_get (fp : dict) :
  build_set fp
  = match Dict.get "build" fp with Some v => truthy v | None => false end.
Proof.
  unfold build_set, truthy_at. rewrite DictFacts.mem_get.
  now destruct (Dict.get "build" fp).
Qed.

Lemma managed_cleared_get (fp : dict) :
  managed_cleared fp
  = match Dict.get "managed" fp with
    | Some v => negb (truthy v)
    | None => false
    end.
Proof.
  unfold managed_cleared, truthy_at. rewrite DictFacts.mem_get.
  now destruct (Dict.get "managed" fp).
Qed.

Lemma normalized_typed (fp : dict) :
  host_spec_typed fp = true -> host_spec_typed (normalized fp) = true.
Proof.
  unfold host_spec_typed, has_type. intros Hty.
  repeat (apply andb_prop in Hty; destruct Hty as [Hty ?]).
  rewrite mem_normalized by discriminate.
  rewrite get_normalized_managed, get_normalized_build, get_normalized_mac,
    get_normalized_interfaces.
  rewrite Hty. cbn [andb].
  assert (Hm : match (if build_set fp then Some (VBool true)
                      else Dict.get "managed" fp) with
               | Some v => is_bool v
               | None => true
               end = true) by (now destruct (build_set fp)).
  assert (Hb : match (if build_set fp then Dict.get "build" fp
                      else if negb (Dict.mem "build" fp) && managed_cleared fp
                           then Some (VBool false)
                           else Dict.get "build" fp) with
               | Some v => is_bool v
               | None => true
               end = true).
  { destruct (build_set fp); [assumption|]. now destruct (_ && _). }
  rewrite Hm, Hb. cbn [andb].
  destruct (Dict.get "mac" fp) as [[]|]; try discriminate; cbn [is_str andb];
    destruct (Dict.get "interfaces_attributes" fp) as [[]|];
    try discriminate; try reflexivity;
    cbn [is_list_of_dict]; apply forallb_is_dict_pruned.
Qed.

Lemma normalized_idempotent (fp : dict) :
  host_spec_typed fp = true ->
  normalized (normalized fp) = normalized fp
  /\ normalize_warnings (normalized fp) = [].
Proof.
  intros Hty. set (d := normalized fp).
  assert (Hbs : build_set d = build_set fp).
  { rewrite (build_set_get d). subst d. rewrite get_normalized_build.
    rewrite (build_set_get fp).
    destruct (Dict.get "build" fp) as [v|] eqn:Eb.
    - destruct (truthy v) eqn:Ev; [now rewrite Ev|].
      rewrite DictFacts.mem_get, Eb. cbn [negb andb]. now rewrite Ev.
    - rewrite DictFacts.mem_get, Eb. cbn [negb andb].
      now destruct (managed_cleared fp). }
  assert (Hmc : build_set fp = true -> managed_cleared d = false).
  { intros H. rewrite managed_cleared_get. subst d.
    now rewrite get_normalized_managed, H. }
  assert (Hcouple : couple_build_managed d = d).
  { unfold couple_build_managed. rewrite Hbs.
    destruct (build_set fp) eqn:Eb.
    - apply set_same_get. subst d. now rewrite get_normalized_managed, Eb.
    - destruct (negb (Dict.mem "build" d) && managed_cleared d) eqn:E;
        [|reflexivity].
      apply set_same_get. apply andb_prop in E. destruct E as [E1 E2].
      rewrite DictFacts.mem_get in E1. rewrite managed_cleared_get in E2.
      subst d. rewrite get_normalized_build, Eb in *.
      rewrite get_normalized_managed, Eb in E2.
      rewrite <- managed_cleared_get in E2. rewrite E2, andb_true_r in *.
      destruct (Dict.mem "build" fp) eqn:Em; cbn [negb] in *;
        [|reflexivity].
      rewrite DictFacts.mem_get in Em.
      destruct (Dict.get "build" fp); discriminate. }
  assert (Hlower : lower_mac d = d).
  { unfold lower_mac.
    destruct (Dict.get "mac" d) as [[| | |m| |]|] eqn:E; try reflexivity.
    apply set_same_get. rewrite E. subst d.
    rewrite get_normalized_mac in E.
    destruct (Dict.get "mac" fp) as [[]|]; try discriminate.
    injection E as <-. now rewrite lower_idempotent. }
  assert (Howner : derive_owner_type d = d).
  { unfold derive_owner_type.
    assert (Ho : Dict.mem "owner" d = Dict.mem "owner" fp)
      by (subst d; now rewrite !DictFacts.mem_get, mem_normalized
            by discriminate).
    assert (Hg : Dict.mem "owner_group" d = Dict.mem "owner_group" fp)
      by (subst d; now rewrite !DictFacts.mem_get, mem_normalized
            by discriminate).
    rewrite Ho, Hg.
    destruct (Dict.mem "owner" fp) eqn:E1.
    - apply set_same_get. subst d.
      now rewrite get_normalized_owner_type, E1.
    - destruct (Dict.mem "owner_group" fp) eqn:E2; [|reflexivity].
      apply set_same_get. subst d.
      now rewrite get_normalized_owner_type, E1, E2. }
  assert (Hprune : prune_interfaces d = d).
  { unfold prune_interfaces.
    destruct (Dict.get "interfaces_attributes" d) as [[| | | |l|]|] eqn:E;
      try reflexivity.
    apply set_same_get. rewrite E. subst d.
    rewrite get_normalized_interfaces in E.
    destruct (Dict.get "interfaces_attributes" fp) as [[]|];
      try discriminate.
    injection E as <-. now rewrite pruned_interfaces_idempotent. }
  split.
  - unfold normalized at 1. fold d. now rewrite Hcouple, Hlower, Howner.
  - unfold normalize_warnings. rewrite Hbs.
    destruct (build_set fp) eqn:Eb; [|reflexivity].
    now rewrite (Hmc eq_refl).
Qed.

(** X14: Normalising is idempotent: on parameters of the declared types the
    normalisation succeeds, its result has the declared types again, and
    normalising that result once more gives it back unchanged and without
    any warning. *)
Theorem host_normalize_idempotent (fp : dict) (s : mstate World) :
  host_spec_typed fp = true ->
  exists fp' s',
    host_normalize fp s = (Ret fp', s')
    /\ host_spec_typed fp' = true
    /\ host_normalize fp' s' = (Ret fp', s').
Proof.
  intros Hty. eexists _, _.
  split; [apply host_normalize_typed; exact Hty|].
  split; [now apply normalized_typed|].
  destruct (normalized_idempotent fp Hty) as [Hn Hw].
  rewrite host_normalize_typed by (now apply normalized_typed).
  rewrite Hn, Hw. cbn [world changed trace]. now rewrite app_nil_r.
Qed.

(** X15: What the normalisation leaves alone: no key is taken away; every key
    but [managed], [build], [mac], [owner_type] and [interfaces_attributes]
    keeps its value; [managed] and [build] keep theirs unless [build] is
    true or [build] is missing with [managed] false; and [owner_type] keeps
    its value when neither [owner] nor [owner_group] is given. *)
Theorem host_normalize_frame (fp : dict) (s : mstate World) :
  host_spec_typed fp = true ->
  exists fp' s',
    host_normalize fp s = (Ret fp', s')
    /\ world s' = world s /\ changed s' = changed s
    /\ (forall k, Dict.mem k fp = true -> Dict.mem k fp' = true)
    /\ (forall k, k <> "managed" -> k <> "build" -> k <> "mac" ->
                  k <> "owner_type" -> k <> "interfaces_attributes" ->
                  Dict.get k fp' = Dict.get k fp)
    /\ (build_set fp = false ->
        (Dict.mem "build" fp = true \/ managed_cleared fp = false) ->
        Dict.get "managed" fp' = Dict.get "managed" fp
        /\ Dict.get "build" fp' = Dict.get "build" fp)
    /\ (Dict.mem "owner" fp = false -> Dict.mem "owner_group" fp = false ->
        Dict.get "owner_type" fp' = Dict.get "owner_type" fp)
    /\ (Dict.get "mac" fp = None -> Dict.get "mac" fp' = None)
    /\ (Dict.get "interfaces_attributes" fp = None ->
        Dict.get "interfaces_attributes" fp' = None).
Proof.
  intros Hty. eexists _, _.
  split; [apply host_normalize_typed; exact Hty|].
  cbn [world changed]. split; [reflexivity|]. split; [reflexivity|].
  split; [|split; [|split; [|split; [|split]]]].
  - intros k Hk. unfold normalized, prune_interfaces, derive_owner_type,
      lower_mac, couple_build_managed.
    repeat match goal with
           | |- context [match ?x with _ => _ end] => destruct x
           end;
      repeat apply mem_set_keeps; exact Hk.
  - intros k. apply mem_normalized.
  - intros Hb Hc. rewrite get_normalized_managed, get_normalized_build, Hb.
    split; [reflexivity|].
    destruct Hc as [Hc | Hc]; rewrite Hc; cbn [negb andb];
      [reflexivity | now rewrite andb_false_r].
  - intros Ho Hg. now rewrite get_normalized_owner_type, Ho, Hg.
  - intros Hm. now rewrite get_normalized_mac, Hm.
  - intros Hi. now rewrite get_normalized_interfaces, Hi.
Qed.

End HostNormalisation.

(** ** The call sequences of the installation medium module *)

Section MediumTraces.

Context {World : Type} (R : remote World).

(** The body of [main] once the name is known not to be the wildcard. *)
Lemma medium_main_named (module : medium_module) (name : value)
  (s : mstate World) :
  Dict.get "name" (m_foreman_params module) = Some name ->
  eq_str name "*" = false ->
  medium_main R module s
  = api_connection
      (bind (call (find_resource_by_name R "media" name)
                  (EFindResourceByName "media" name)) (fun entity =>
       bind (medium_resolve R module false entity) (fun module_params =>
       medium_ensure R false module_params [] entity))) s.
Proof.
  intros Hname Hstar.
  unfold medium_main, api_connection, medium_lookup, bind, getitem.
  rewrite Hname. cbn [ret]. rewrite Hstar. cbn [ret].
  now destruct (call _ _ _) as [[entity | msg | c | exn] s1].
Qed.

(** X5: Deleting one medium by name: the module looks the medium up, and
    hands the parameters as given and what it found to the reconciliation;
    it neither resolves references nor shows or lists anything. When the
    lookup fails nothing else is called. *)
Theorem medium_named_absent_calls (module : medium_module) (name : value)
  (w : World) :
  m_state module = Absent ->
  Dict.get "name" (m_foreman_params module) = Some name ->
  eq_str name "*" = false ->
  let found := find_resource_by_name R "media" name w in
  trace (snd (medium_main R module (init w)))
  = match fst found with
    | inl msg =>
        [EApiConnect; EFindResourceByName "media" name (inl msg);
         EApiRelease]
    | inr entity =>
        [EApiConnect; EFindResourceByName "media" name (inr entity);
         EEnsureEntity "media" (m_foreman_params module) entity
           (fst (ensure_entity R "media" (m_foreman_params module) entity
                   (snd found)));
         EApiRelease]
    end.
Proof.
  intros Hst Hname Hstar found. subst found.
  rewrite (medium_main_named _ _ _ Hname Hstar).
  cbv [api_connection bind call call_changing medium_resolve medium_ensure
       ret log init world changed].
  rewrite Hst. cbn [is_absent negb].
  destruct (find_resource_by_name R "media" name w) as [[msg | entity] w1];
    [reflexivity|].
  cbn [fst snd].
  now destruct (ensure_entity R "media" _ entity w1) as [[msg | c] w2].
Qed.

(** X6: For a named medium in a state other than absent, whose resolved
    [operatingsystems] are a list when given, the operating system family
    is not derived when [os_family] is given, when no operating systems are
    given, or when their list does not hold exactly one: the resolved
    parameters go to the reconciliation as they are and no operating system
    is shown. *)
Theorem medium_os_family_not_derived (module : medium_module)
  (w w1 w2 : World) (name : value) (entity resolved : option dict)
  (module_params : dict) :
  is_absent (m_state module) = false ->
  Dict.get "name" (m_foreman_params module) = Some name ->
  eq_str name "*" = false ->
  find_resource_by_name R "media" name w = (inr entity, w1) ->
  resolve_entities R (m_foreman_params module) entity w1
  = (inr (resolved, module_params), w2) ->
  has_type is_list "operatingsystems" module_params = true ->
  (Dict.mem "os_family" module_params = true
   \/ Dict.get "operatingsystems" module_params = None
   \/ exists oses, Dict.get "operatingsystems" module_params
                   = Some (VList oses) /\ length oses <> 1) ->
  trace (snd (medium_main R module (init w)))
  = [EApiConnect;
     EFindResourceByName "media" name (inr entity);
     EResolveEntities (m_foreman_params module) entity
       (inr (resolved, module_params));
     EEnsureEntity "media" module_params entity
       (fst (ensure_entity R "media" module_params entity w2));
     EApiRelease].
Proof.
  intros Habs Hname Hstar Hfind Hres Hlist Hcase.
  rewrite (medium_main_named _ _ _ Hname Hstar).
  assert (Hderive : forall s,
            medium_derives (World:=World) false module_params entity s
            = (Ret false, s)).
  { intros s. unfold medium_derives. cbn [negb]. rewrite andb_true_r.
    rewrite DictFacts.mem_get.
    destruct Hcase as [Hf | [Hn | (oses & Ho & Hlen)]].
    - destruct (Dict.get "operatingsystems" module_params) as [v|] eqn:E;
        [|reflexivity].
      unfold has_type in Hlist. rewrite E in Hlist.
      destruct v; try discriminate.
      unfold bind, getitem. rewrite E. cbn [ret len]. rewrite Hf.
      cbn [negb]. now rewrite andb_false_r.
    - now rewrite Hn.
    - rewrite Ho. unfold bind, getitem. rewrite Ho. cbn [ret len].
      destruct (Nat.eqb_spec (length oses) 1); [contradiction|reflexivity]. }
  cbv [api_connection bind call call_changing medium_resolve medium_ensure
       ret log init world changed].
  rewrite Hfind, Habs. cbn [negb]. rewrite Hres, Hderive. cbn [negb].
  now destruct (ensure_entity R "media" module_params entity w2)
    as [[msg | c] w3].
Qed.




Lemma medium_resolve_wildcard (module : medium_module)
  (entity : option dict) (s : mstate World) :
  is_absent (m_state module) = false ->
  medium_resolve R module true entity s
  = let (r, w1) :=
      resolve_entities R (m_foreman_params module) entity (world s) in
    let s1 :=
      MState w1 (changed s)
        (trace s ++ [EResolveEntities (m_foreman_params module) entity r])%list
    in
    match r with
    | inl msg => (FailJson msg, s1)
    | inr (_, params) => (Ret params, s1)
    end.
Proof.
  intros Habs. unfold medium_resolve. rewrite Habs. cbn [negb].
  unfold bind, call.
  destruct (resolve_entities R _ entity (world s))
    as [[msg | [ent params]] w1]; [reflexivity|].
  unfold medium_derives. cbn [negb]. now rewrite andb_false_r.
Qed.


(** X4: The two modes keep to their own calls. For a medium given by name
    nothing is listed and no medium is shown, and the module never exits
    early; for all media nothing is looked up by name and no operating
    system is shown. *)
Theorem medium_calls_by_mode (module : medium_module) (name : value)
  (w : World) :
  Dict.get "name" (m_foreman_params module) = Some name ->
  let result := medium_main R module (init w) in
  exists t,
    trace (snd result) = EApiConnect :: (t ++ [EApiRelease])%list
    /\ if eq_str name "*" then Forall bulk_call t
       else Forall named_call t /\ forall c, fst result <> ExitJson c.
Proof.
  intros Hname result. subst result.
  destruct (eq_str name "*") eqn:Hstar.
  - assert (Hn : name = VStr "*").
    { destruct name; try discriminate. cbn in Hstar.
      apply String.eqb_eq in Hstar. now subst. }
    subst name. rewrite (medium_main_wildcard _ _ _ Hname).
    unfold api_connection.
    match goal with
    | |- context [let (_, _) := ?b _ in _] => set (body := b)
    end.
    assert (Hb : disciplined bulk_call True body).
    { subst body.
      apply disciplined_bind;
        [unfold medium_check_wildcard; disciplined_tac|].
      intros _. apply disciplined_bind;
        [unfold medium_lookup; disciplined_tac|].
      intros [entities entity]. apply disciplined_bind.
      - destruct (is_absent (m_state module)) eqn:Habs.
        + unfold medium_resolve. rewrite Habs. apply disciplined_ret.
        + apply (disciplined_ext _ _ _
                   (bind (call (resolve_entities R (m_foreman_params module)
                                  entity)
                               (EResolveEntities (m_foreman_params module)
                                  entity))
                         (fun p => ret (snd p)))).
          * intros s. rewrite (medium_resolve_wildcard _ _ _ Habs).
            unfold bind, call.
            now destruct (resolve_entities R _ entity (world s))
              as [[msg | [ent params]] w1].
          * disciplined_tac.
      - intros params. unfold medium_ensure. disciplined_tac. }
    destruct (Hb (log EApiConnect (init w))) as (t & Ht & HP & _).
    clearbody body. destruct (body (log EApiConnect (init w))) as [r s1].
    cbn [snd log trace init app] in *. exists t. now rewrite Ht.
  - rewrite (medium_main_named _ _ _ Hname Hstar). unfold api_connection.
    match goal with
    | |- context [let (_, _) := ?b _ in _] => set (body := b)
    end.
    assert (Hb : disciplined named_call False body).
    { subst body. apply disciplined_bind; [disciplined_tac|].
      intros entity. apply disciplined_bind.
      - unfold medium_resolve, medium_derives, subscript, first, len.
        disciplined_tac.
      - intros params. unfold medium_ensure. disciplined_tac. }
    destruct (Hb (log EApiConnect (init w))) as (t & Ht & HP & _ & He & _).
    clearbody body. destruct (body (log EApiConnect (init w))) as [r s1].
    cbn [fst snd log trace init app] in *. exists t. rewrite Ht.
    split; [reflexivity|]. split; [exact HP|].
    intros c H. now destruct (He c H).
Qed.

End MediumTraces.

(** ** The call sequence of the host module *)

Section HostTraces.

Context {World : Type} (R : remote World).

(** X12: A host in a state other than absent whose normalisation and lookups
    went through: the lookups get the normalised parameters; [run] gets
    what the lookups gave back, less [puppetclasses]; and when [run] gives
    an entity with an [environment_id], the synchronisation of the puppet
    classes gets that entity and the [puppetclasses] that were taken out
    (or [None] when there were none). *)
Theorem host_present_calls (st : entity_state) (fp fp' looked : dict)
  (name : string) (warnings : list event) (w w1 : World) :
  is_absent st = false ->
  Dict.get "name" fp = Some (VStr name) ->
  str_contains "." name = true ->
  host_normalize fp (init w) = (Ret fp', MState w false warnings) ->
  auto_lookup_entities R fp' w = (inr looked, w1) ->
  let params := Dict.pop "puppetclasses" looked in
  let expected :=
    match Dict.get "puppetclasses" looked with
    | Some v => v
    | None => VNone
    end in
  let ran := run R params w1 in
  trace (snd (host_main R (HostModule st fp) (init w)))
  = (warnings
     ++ EApiConnect
     :: EAutoLookupEntities fp' (inr looked)
     :: ERun params (fst ran)
     :: match fst ran with
        | inr (Some entity, _) =>
            if Dict.mem "environment_id" entity then
              [EEnsurePuppetclasses "host" entity expected
                 (fst (ensure_puppetclasses R "host" entity expected
                         (snd ran)))]
            else []
        | _ => []
        end
     ++ [EApiRelease])%list.
Proof.
  intros Habs Hname Hdot Hnorm Hlook params expected ran.
  unfold host_main. cbn [h_foreman_params h_state]. rewrite Habs.
  unfold bind at 1, getitem. rewrite Hname. cbn [ret].
  unfold bind at 1, contains. cbn [ret]. rewrite Hdot. cbn [negb].
  unfold bind at 1. cbn [ret]. unfold bind at 1. rewrite Hnorm.
  unfold api_connection, host_reconcile. cbn [negb].
  cbv [bind call call_changing set_changed ret raise log world changed].
  cbn [trace]. rewrite Hlook. fold params expected. fold ran.
  destruct ran as [[msg | [[entity|] chg]] w2]; cbn [fst snd trace];
    try (now rewrite <- !app_assoc).
  destruct (Dict.mem "environment_id" entity);
    [|cbn [snd trace]; now rewrite <- !app_assoc].
  destruct (ensure_puppetclasses R "host" entity expected w2)
    as [[msg | c] w3]; cbn [fst snd trace]; now rewrite <- !app_assoc.
Qed.

End HostTraces.

(** ** The further properties at work *)




Lemma host_normalize_idempotent_witness :
  exists fp' s',
    host_normalize host_params (init tt) = (Ret fp', s')
    /\ host_normalize fp' s' = (Ret fp', s').
Proof.
  destruct (host_normalize_idempotent host_params (init tt) eq_refl)
    as (fp' & s' & Hn & _ & Hi).
  exists fp', s'. split; [exact Hn | exact Hi].
Defined.

Lemma host_normalize_frame_witness :
  exists fp' s',
    host_normalize host_params (init tt) = (Ret fp', s')
    /\ Dict.get "owner" fp' = Some (VStr "admin").
Proof.
  destruct (host_normalize_frame host_params (init tt) eq_refl)
    as (fp' & s' & Hn & _ & _ & _ & Hk & _).
  exists fp', s'. split; [exact Hn|].
  rewrite Hk by discriminate. reflexivity.
Defined.

Lemma medium_named_absent_calls_witness :
  trace (snd (medium_main (stub_remote [] (Some wheezy_remote) [] None)
                medium_delete_wheezy (init tt)))
  = [EApiConnect;
     EFindResourceByName "media" (VStr "wheezy") (inr (Some wheezy_remote));
     EEnsureEntity "media" (m_foreman_params medium_delete_wheezy)
       (Some wheezy_remote) (inr true);
     EApiRelease].
Proof.
  exact (medium_named_absent_calls
           (stub_remote [] (Some wheezy_remote) [] None)
           medium_delete_wheezy (VStr "wheezy") tt
           eq_refl eq_refl eq_refl).
Defined.

Lemma medium_os_family_not_derived_witness :
  let params := m_foreman_params medium_wheezy_with_family in
  trace (snd (medium_main (stub_remote [] None debian None)
                medium_wheezy_with_family (init tt)))
  = [EApiConnect;
     EFindResourceByName "media" (VStr "wheezy") (inr None);
     EResolveEntities params None (inr (None, params));
     EEnsureEntity "media" params None (inr true);
     EApiRelease].
Proof.
  exact (medium_os_family_not_derived
           (stub_remote [] None debian None) medium_wheezy_with_family
           tt tt tt (VStr "wheezy") None None
           (m_foreman_params medium_wheezy_with_family)
           eq_refl eq_refl eq_refl eq_refl eq_refl eq_refl
           (or_introl eq_refl)).
Defined.



Lemma host_present_calls_witness :
  let fp' := normalized host_params in
  trace (snd (host_main (stub_remote [] None [] (Some host_entity))
                (HostModule Present host_params) (init tt)))
  = [EWarn msg_build_managed;
     EApiConnect;
     EAutoLookupEntities fp' (inr fp');
     ERun fp' (inr (Some host_entity, true));
     EEnsurePuppetclasses "host" host_entity VNone (inr true);
     EApiRelease].
Proof.
  exact (host_present_calls (stub_remote [] None [] (Some host_entity))
           Present host_params (normalized host_params)
           (normalized host_params) "new.example.com"
           (normalize_warnings host_params) tt tt
           eq_refl eq_refl eq_refl eq_refl eq_refl).
Defined.

Lemma medium_calls_by_mode_witness :
  exists t,
    trace (snd (medium_main (stub_remote [] None [] None)
                  medium_delete_wheezy (init tt)))
    = EApiConnect :: (t ++ [EApiRelease])%list
    /\ Forall named_call t.
Proof.
  destruct (medium_calls_by_mode (stub_remote [] None [] None)
              medium_delete_wheezy (VStr "wheezy") tt eq_refl)
    as (t & Ht & Hn & _).
  exists t. split; [exact Ht | exact Hn].
Defined.
